(** * yt-dlp-mcp: configuration resolution and comment response shaping

    A shallow embedding of [src/config.ts] (configuration loading, cookie
    arguments, file-name sanitising) and of [src/modules/comments.ts]
    (comment extraction, size ceiling, error classification, summary).

    Conventions of the model.
    - A JavaScript string is a [string]: a sequence of code units, here the
      code units below 256.  [String.length] is [.length].  Case mapping is
      the ASCII one, which is what [toUpperCase]/[toLowerCase] do on such
      text apart from a few Latin-1 letters.
    - [undefined] is [None].  JavaScript truthiness is written out: the empty
      string, [0], [NaN], [false] and [undefined] are falsy.
    - Numbers of the configuration and of comments are integers ([Z]);
      [NaN], which only [parseInt] produces here, is a separate constructor.
    - A [throw] is the [Throws] constructor of [outcome]; [console.warn]
      appends to a log that is returned with the value.
    - What the program asks of its surroundings is a field of a record:
      [Host] for [config.ts] (environment variables, the file system, the
      home directory, the regular-expression compiler) and [Tool] for
      [comments.ts] (the URL validator, the external tool, the JSON
      parser).
    - [maxComments] is a count, a natural number.
    - [path] is the POSIX flavour of the Node module, and
      [toLocaleString] prints in the [en-US] locale. *)

From stdpp Require Import base option list strings gmap.
From Equations Require Import Equations.
From Stdlib Require Import ZArith Ascii Lia.

Local Open Scope Z_scope.
Local Open Scope stdpp_scope.

(** ** JavaScript strings and arrays *)

Module JS.

(** [s.length] as a number. *)
Definition len (s : string) : Z := Z.of_nat (String.length s).

(** A string is truthy when it is not empty. *)
Definition nonempty (s : string) : bool := bool_decide (s ≠ "").

(** [v !== undefined]. *)
Definition defined {A} (v : option A) : bool :=
  match v with
  | Some _ => true
  | None => false
  end.

(** [a || b] on an optional string with a string default. *)
Definition or_else (v : option string) (d : string) : string :=
  match v with
  | Some s => if nonempty s then s else d
  | None => d
  end.

(** The relative index of [Array.prototype.slice] and
    [String.prototype.slice]: negative indices count from the end, and the
    result is clamped to [0..len]. *)
Definition rel_index (len k : Z) : Z :=
  if k <? 0 then Z.max (len + k) 0 else Z.min k len.

(** [l.slice(b, e)]. *)
Definition slice {A} (l : list A) (b e : Z) : list A :=
  let n := Z.of_nat (length l) in
  let from := rel_index n b in
  let to := rel_index n e in
  take (Z.to_nat (to - from)) (drop (Z.to_nat from) l).

(** [s.slice(b, e)]. *)
Definition str_slice (s : string) (b e : Z) : string :=
  let n := len s in
  let from := rel_index n b in
  let to := rel_index n e in
  String.substring (Z.to_nat from) (Z.to_nat (to - from)) s.

(** [s.includes(t)]: [t] occurs in [s] as a contiguous run. *)
Fixpoint includes (t s : string) : bool :=
  String.prefix t s ||
  match s with
  | EmptyString => false
  | String _ s' => includes t s'
  end.

(** [arr.includes(x)] on an array of strings. *)
Definition arr_includes (arr : list string) (x : string) : bool :=
  bool_decide (x ∈ arr).

Definition is_upper (c : ascii) : bool :=
  let n := nat_of_ascii c in (65 <=? n)%nat && (n <=? 90)%nat.
Definition is_lower (c : ascii) : bool :=
  let n := nat_of_ascii c in (97 <=? n)%nat && (n <=? 122)%nat.
Definition is_digit (c : ascii) : bool :=
  let n := nat_of_ascii c in (48 <=? n)%nat && (n <=? 57)%nat.
Definition is_letter (c : ascii) : bool := is_upper c || is_lower c.

Definition lower_char (c : ascii) : ascii :=
  if is_upper c then ascii_of_nat (nat_of_ascii c + 32) else c.
Definition upper_char (c : ascii) : ascii :=
  if is_lower c then ascii_of_nat (nat_of_ascii c - 32) else c.

Fixpoint map_str (f : ascii → ascii) (s : string) : string :=
  match s with
  | EmptyString => EmptyString
  | String c s' => String (f c) (map_str f s')
  end.

Definition toLowerCase : string → string := map_str lower_char.
Definition toUpperCase : string → string := map_str upper_char.

(** [s.split(sep)] for a one-character separator: the pieces between the
    separators, at least one piece. *)
Fixpoint split_on (sep : ascii) (s : string) : list string :=
  match s with
  | EmptyString => [EmptyString]
  | String c s' =>
      if bool_decide (c = sep) then EmptyString :: split_on sep s'
      else match split_on sep s' with
           | p :: ps => String c p :: ps
           | [] => [String c EmptyString]
           end
  end.

(** [s.split(sep)[0]]. *)
Definition split_head (sep : ascii) (s : string) : string :=
  match split_on sep s with
  | p :: _ => p
  | [] => EmptyString
  end.

(** [arr.join(sep)]. *)
Fixpoint join (sep : string) (arr : list string) : string :=
  match arr with
  | [] => ""
  | [x] => x
  | x :: rest => x +:+ sep +:+ join sep rest
  end.

(** Decimal digits of a natural number, as [String(n)] prints them. *)
Fixpoint digits_fuel (fuel : nat) (n : N) (acc : string) : string :=
  match fuel with
  | O => acc
  | S fuel' =>
      let d := ascii_of_N (48 + N.modulo n 10) in
      let acc' := String d acc in
      if (n <? 10)%N then acc' else digits_fuel fuel' (N.div n 10) acc'
  end.

Definition nat_digits (n : N) : string :=
  digits_fuel (S (N.to_nat (N.log2 n))) n "".

(** [String(z)] for an integer. *)
Definition Z_to_string (z : Z) : string :=
  if z <? 0 then "-" +:+ nat_digits (Z.to_N (- z)) else nat_digits (Z.to_N z).

End JS.

(** ** Results of code that can throw *)

(** A computation either returns a value or throws an [Error] with a
    message. *)
Inductive outcome (A : Type) : Type :=
| Returns (a : A)
| Throws (message : string).
Arguments Returns {A} a.
Arguments Throws {A} message.

Global Instance outcome_ret : MRet outcome := λ A a, Returns a.

Global Instance outcome_bind : MBind outcome := λ A B k m,
  match m with
  | Returns a => k a
  | Throws msg => Throws msg
  end.

(** ** Regular expressions

    [illegalChars] is a pattern for one illegal character: a class of
    characters and the [g] flag.  The literal of the default configuration
    carries [g]; a pattern compiled by [new RegExp(source)] carries no
    flag. *)
Record RegExp := {
  re_class : ascii → bool;
  re_global : bool
}.

(** ** [config.ts]: the configuration *)

Record Sanitize := {
  replaceChar : string;
  truncateSuffix : string;
  illegalChars : RegExp;
  reservedNames : list string
}.

Record FileConfig := {
  maxFilenameLength : Z;
  downloadsDir : string;
  tempDirPrefix : string;
  sanitize : Sanitize
}.

Record ToolsConfig := { required : list string }.

Record DownloadConfig := {
  defaultResolution : string;
  defaultAudioFormat : string;
  defaultSubtitleLanguage : string
}.

Record LimitsConfig := {
  characterLimit : Z;
  maxTranscriptLength : Z
}.

(** The two fields of [Config['cookies']], [file] and [fromBrowser]. *)
Record CookiesConfig := {
  cookies_file : option string;
  cookies_fromBrowser : option string
}.

Record Config := {
  file : FileConfig;
  tools : ToolsConfig;
  download : DownloadConfig;
  limits : LimitsConfig;
  cookies : CookiesConfig
}.

Definition VALID_BROWSERS : list string :=
  ["brave"; "chrome"; "chromium"; "edge";
   "firefox"; "opera"; "safari"; "vivaldi"; "whale"].

(** The character class of the default [illegalChars] literal: the control
    characters 0 to 31 and the Windows illegal characters, that is less-than,
    greater-than, colon, double quote, slash, backslash, bar, question mark
    and star. *)
Definition illegal_default_class (c : ascii) : bool :=
  let n := nat_of_ascii c in
  (n <=? 31)%nat ||
  bool_decide (n ∈ [60; 62; 58; 34; 47; 92; 124; 63; 42]%nat).

Definition illegalChars_default : RegExp :=
  {| re_class := illegal_default_class; re_global := true |}.

(** ** [getCookieArgs] *)

(** The body of [getCookieArgs] on the value of [config.cookies]; [None] is
    the missing cookies object of the first guard. *)
Definition cookieArgs (ck : option CookiesConfig) : list string :=
  match ck with
  | None => []
  | Some ck =>
      match cookies_file ck with
      | Some f =>
          if JS.nonempty f then ["--cookies"; f]
          else match cookies_fromBrowser ck with
               | Some b =>
                   if JS.nonempty b then ["--cookies-from-browser"; b] else []
               | None => []
               end
      | None =>
          match cookies_fromBrowser ck with
          | Some b =>
              if JS.nonempty b then ["--cookies-from-browser"; b] else []
          | None => []
          end
      end
  end.

(** [getCookieArgs(config)] for a value of type [Config], whose [cookies]
    object is always there. *)
Definition getCookieArgs (config : Config) : list string :=
  cookieArgs (Some (cookies config)).

(** ** The host of [config.ts] *)

(** What [config.ts] reads from its surroundings when it is loaded. *)
Record Host := {
  (** [process.env] *)
  env : gmap string string;
  (** [fs.existsSync] *)
  existsSync : string → bool;
  (** the value of [path.join(os.homedir(), "Downloads")] *)
  homeDownloads : string;
  (** [new RegExp(source)]: the class of the compiled pattern, or [None]
      when the constructor throws a [SyntaxError] *)
  compileClass : string → option (ascii → bool)
}.

Definition defaultConfig (h : Host) : Config := {|
  file := {|
    maxFilenameLength := 50;
    downloadsDir := homeDownloads h;
    tempDirPrefix := "ytdlp-";
    sanitize := {|
      replaceChar := "_";
      truncateSuffix := "...";
      illegalChars := illegalChars_default;
      reservedNames :=
        ["CON"; "PRN"; "AUX"; "NUL"; "COM1"; "COM2"; "COM3"; "COM4";
         "COM5"; "COM6"; "COM7"; "COM8"; "COM9"; "LPT1"; "LPT2";
         "LPT3"; "LPT4"; "LPT5"; "LPT6"; "LPT7"; "LPT8"; "LPT9"]
    |}
  |};
  tools := {| required := ["yt-dlp"] |};
  download := {|
    defaultResolution := "720p";
    defaultAudioFormat := "m4a";
    defaultSubtitleLanguage := "en"
  |};
  limits := {|
    characterLimit := 25000;
    maxTranscriptLength := 50000
  |};
  cookies := {| cookies_file := None; cookies_fromBrowser := None |}
|}.

(** ** [parseInt] *)

(** A JavaScript number as [parseInt] returns it. *)
Inductive number :=
| NaN
| Num (z : Z).

(** [v || d] on an optional number: [undefined], [NaN] and [0] are falsy. *)
Definition num_or (v : option number) (d : Z) : Z :=
  match v with
  | Some (Num z) => if z =? 0 then d else z
  | _ => d
  end.

(** White space that [parseInt] skips: tab, line feed, vertical tab, form
    feed, carriage return, space and no-break space. *)
Definition is_js_space (c : ascii) : bool :=
  bool_decide (nat_of_ascii c ∈ [9; 10; 11; 12; 13; 32; 160]%nat).

Fixpoint trim_start (s : string) : string :=
  match s with
  | String c s' => if is_js_space c then trim_start s' else s
  | EmptyString => EmptyString
  end.

Definition digit_value (c : ascii) : option Z :=
  let n := Z.of_nat (nat_of_ascii c) in
  if JS.is_digit c then Some (n - 48)
  else if JS.is_lower c then Some (n - 87)
  else if JS.is_upper c then Some (n - 55)
  else None.

(** The value of the longest prefix of digits of the radix; [None] when
    that prefix is empty. *)
Fixpoint parse_digits (radix : Z) (s : string) (acc : option Z) : option Z :=
  match s with
  | String c s' =>
      match digit_value c with
      | Some d =>
          if d <? radix
          then parse_digits radix s' (Some (default 0 acc * radix + d))
          else acc
      | None => acc
      end
  | EmptyString => acc
  end.

(** [parseInt(s)] with no radix argument. *)
Definition parseInt (s : string) : number :=
  let s1 := trim_start s in
  let '(sign, s2) :=
    match s1 with
    | String "-" r => (-1, r)
    | String "+" r => (1, r)
    | _ => (1, s1)
    end in
  let '(radix, s3) :=
    match s2 with
    | String "0" (String "x" r) => (16, r)
    | String "0" (String "X" r) => (16, r)
    | _ => (10, s2)
    end in
  match parse_digits radix s3 None with
  | Some v => Num (sign * v)
  | None => NaN
  end.

(** ** [loadEnvConfig] *)

(** [DeepPartial<Config>]: every key may be missing. *)
Record SanitizePartial := {
  p_replaceChar : option string;
  p_truncateSuffix : option string;
  p_illegalChars : option RegExp;
  p_reservedNames : option (list string)
}.

Record FilePartial := {
  p_maxFilenameLength : option number;
  p_downloadsDir : option string;
  p_tempDirPrefix : option string;
  p_sanitize : option SanitizePartial
}.

Record ToolsPartial := { p_required : option (list string) }.

Record DownloadPartial := {
  p_defaultResolution : option string;
  p_defaultAudioFormat : option string;
  p_defaultSubtitleLanguage : option string
}.

Record LimitsPartial := {
  p_characterLimit : option number;
  p_maxTranscriptLength : option number
}.

Record CookiesPartial := {
  p_cookies_file : option string;
  p_cookies_fromBrowser : option string
}.

Record ConfigPartial := {
  p_file : option FilePartial;
  p_tools : option ToolsPartial;
  p_download : option DownloadPartial;
  p_limits : option LimitsPartial;
  p_cookies : option CookiesPartial
}.

(** [process.env.NAME] when it is truthy, [undefined] otherwise: the
    pattern [if (process.env.NAME) { target = process.env.NAME }]. *)
Definition env_truthy (h : Host) (name : string) : option string :=
  match env h !! name with
  | Some v => if JS.nonempty v then Some v else None
  | None => None
  end.

(** [new RegExp(source)]. *)
Definition RegExp_new (h : Host) (source : string) : outcome RegExp :=
  match compileClass h source with
  | Some cls => Returns {| re_class := cls; re_global := false |}
  | None => Throws ("Invalid regular expression: /" +:+ source +:+ "/")
  end.

Definition loadEnvConfig (h : Host) : outcome ConfigPartial :=
  illegal ←
    match env_truthy h "YTDLP_SANITIZE_ILLEGAL_CHARS" with
    | Some src => re ← RegExp_new h src; mret (Some re)
    | None => mret None
    end;
  let fileConfig := {|
    p_sanitize := Some {|
      p_replaceChar := env h !! "YTDLP_SANITIZE_REPLACE_CHAR";
      p_truncateSuffix := env h !! "YTDLP_SANITIZE_TRUNCATE_SUFFIX";
      p_illegalChars := illegal;
      p_reservedNames :=
        JS.split_on "," <$> (env h !! "YTDLP_SANITIZE_RESERVED_NAMES")
    |};
    p_maxFilenameLength :=
      parseInt <$> env_truthy h "YTDLP_MAX_FILENAME_LENGTH";
    p_downloadsDir := env_truthy h "YTDLP_DOWNLOADS_DIR";
    p_tempDirPrefix := env_truthy h "YTDLP_TEMP_DIR_PREFIX"
  |} in
  let downloadConfig := {|
    p_defaultResolution :=
      match env_truthy h "YTDLP_DEFAULT_RESOLUTION" with
      | Some v =>
          if JS.arr_includes ["480p"; "720p"; "1080p"; "best"] v
          then Some v else None
      | None => None
      end;
    p_defaultAudioFormat :=
      match env_truthy h "YTDLP_DEFAULT_AUDIO_FORMAT" with
      | Some v => if JS.arr_includes ["m4a"; "mp3"] v then Some v else None
      | None => None
      end;
    p_defaultSubtitleLanguage := env_truthy h "YTDLP_DEFAULT_SUBTITLE_LANG"
  |} in
  let cookiesConfig := {|
    p_cookies_file := env_truthy h "YTDLP_COOKIES_FILE";
    p_cookies_fromBrowser := env_truthy h "YTDLP_COOKIES_FROM_BROWSER"
  |} in
  mret {|
    (* fileConfig always has the key sanitize *)
    p_file := Some fileConfig;
    p_tools := None;
    (* Object.keys(downloadConfig).length > 0 *)
    p_download :=
      if JS.defined (p_defaultResolution downloadConfig)
         || JS.defined (p_defaultAudioFormat downloadConfig)
         || JS.defined (p_defaultSubtitleLanguage downloadConfig)
      then Some downloadConfig else None;
    p_limits := None;
    (* Object.keys(cookiesConfig).length > 0 *)
    p_cookies :=
      if JS.defined (p_cookies_file cookiesConfig)
         || JS.defined (p_cookies_fromBrowser cookiesConfig)
      then Some cookiesConfig else None
  |}.

(** ** [mergeConfig] *)

(** [a ?? b] on optional strings. *)
Definition nullish (v d : option string) : option string :=
  match v with
  | Some s => Some s
  | None => d
  end.

Definition mergeConfig (base : Config) (override : ConfigPartial) : Config :=
  let o_file := p_file override in
  let o_sanitize := o_file ≫= p_sanitize in
  let o_download := p_download override in
  let o_limits := p_limits override in
  let o_cookies := p_cookies override in
  let b_sanitize := sanitize (file base) in
  {|
    file := {|
      maxFilenameLength :=
        num_or (o_file ≫= p_maxFilenameLength) (maxFilenameLength (file base));
      downloadsDir :=
        JS.or_else (o_file ≫= p_downloadsDir) (downloadsDir (file base));
      tempDirPrefix :=
        JS.or_else (o_file ≫= p_tempDirPrefix) (tempDirPrefix (file base));
      sanitize := {|
        replaceChar :=
          JS.or_else (o_sanitize ≫= p_replaceChar) (replaceChar b_sanitize);
        truncateSuffix :=
          JS.or_else (o_sanitize ≫= p_truncateSuffix)
                     (truncateSuffix b_sanitize);
        illegalChars :=
          default (illegalChars b_sanitize) (o_sanitize ≫= p_illegalChars);
        reservedNames :=
          default (reservedNames b_sanitize) (o_sanitize ≫= p_reservedNames)
      |}
    |};
    tools := {|
      required :=
        default (required (tools base)) (p_tools override ≫= p_required)
    |};
    download := {|
      defaultResolution :=
        JS.or_else (o_download ≫= p_defaultResolution)
                   (defaultResolution (download base));
      defaultAudioFormat :=
        JS.or_else (o_download ≫= p_defaultAudioFormat)
                   (defaultAudioFormat (download base));
      defaultSubtitleLanguage :=
        JS.or_else (o_download ≫= p_defaultSubtitleLanguage)
                   (defaultSubtitleLanguage (download base))
    |};
    limits := {|
      characterLimit :=
        num_or (o_limits ≫= p_characterLimit) (characterLimit (limits base));
      maxTranscriptLength :=
        num_or (o_limits ≫= p_maxTranscriptLength)
               (maxTranscriptLength (limits base))
    |};
    cookies := {|
      cookies_file :=
        nullish (o_cookies ≫= p_cookies_file) (cookies_file (cookies base));
      cookies_fromBrowser :=
        nullish (o_cookies ≫= p_cookies_fromBrowser)
                (cookies_fromBrowser (cookies base))
    |}
  |}.

(** ** [validateConfig] and [validateCookiesConfig] *)

(** The test of the subtitle-language pattern, two or three letters, then an
    optional script of a dash and four letters, then an optional region of a
    dash and two letters, anchored at both ends and case-insensitive.  The
    three functions follow the three parts of the pattern; [||] is the
    backtracking of an optional part. *)
Definition tag_region (r : string) : bool :=
  match r with
  | EmptyString => true
  | String "-" (String a (String b EmptyString)) =>
      JS.is_letter a && JS.is_letter b
  | _ => false
  end.

Definition tag_script (r : string) : bool :=
  match r with
  | String "-" (String a (String b (String c (String d r')))) =>
      (JS.is_letter a && JS.is_letter b && JS.is_letter c && JS.is_letter d
       && tag_region r')
      || tag_region r
  | _ => tag_region r
  end.

Definition is_language_tag (s : string) : bool :=
  match s with
  | String a (String b r) =>
      JS.is_letter a && JS.is_letter b &&
      (match r with
       | String c r' => (JS.is_letter c && tag_script r') || tag_script r
       | EmptyString => tag_script r
       end)
  | _ => false
  end.

Definition cookie_file_warning (path : string) : string :=
  "[yt-dlp-mcp] Cookie file not found: " +:+ path
  +:+ ", continuing without cookies".

Definition browser_warning (browserName : string) : string :=
  "[yt-dlp-mcp] Invalid browser name: " +:+ browserName
  +:+ ". Valid browsers: " +:+ JS.join ", " VALID_BROWSERS.

(** The token that [validateCookiesConfig] checks:
    [fromBrowser.split(':')[0].toLowerCase()]. *)
Definition browser_token (fromBrowser : string) : string :=
  JS.toLowerCase (JS.split_head ":" fromBrowser).

(** [validateCookiesConfig]: the configuration after the two assignments,
    and the warnings in the order they are logged. *)
Definition validateCookiesConfig (h : Host) (config : Config)
  : Config * list string :=
  let ck := cookies config in
  let '(file', w1) :=
    match cookies_file ck with
    | Some p =>
        if JS.nonempty p && negb (existsSync h p)
        then (None, [cookie_file_warning p])
        else (Some p, [])
    | None => (None, [])
    end in
  let '(browser', w2) :=
    match cookies_fromBrowser ck with
    | Some b =>
        if JS.nonempty b
           && negb (JS.arr_includes VALID_BROWSERS (browser_token b))
        then (None, [browser_warning (browser_token b)])
        else (Some b, [])
    | None => (None, [])
    end in
  ({| file := file config;
      tools := tools config;
      download := download config;
      limits := limits config;
      cookies := {| cookies_file := file';
                    cookies_fromBrowser := browser' |} |},
   w1 ++ w2).

(** [validateConfig]: the first failing structural check throws; otherwise
    the cookie validation runs. *)
Definition validateConfig (h : Host) (config : Config)
  : outcome (Config * list string) :=
  if maxFilenameLength (file config) <? 5 then
    Throws "maxFilenameLength must be at least 5"
  else if negb (JS.nonempty (downloadsDir (file config))) then
    Throws "downloadsDir must be specified"
  else if negb (JS.nonempty (tempDirPrefix (file config))) then
    Throws "tempDirPrefix must be specified"
  else if negb (JS.arr_includes ["480p"; "720p"; "1080p"; "best"]
                  (defaultResolution (download config))) then
    Throws "Invalid defaultResolution"
  else if negb (JS.arr_includes ["m4a"; "mp3"]
                  (defaultAudioFormat (download config))) then
    Throws "Invalid defaultAudioFormat"
  else if negb (is_language_tag (defaultSubtitleLanguage (download config)))
  then
    Throws "Invalid defaultSubtitleLanguage"
  else
    Returns (validateCookiesConfig h config).

(** ** [loadConfig] *)

Definition loadConfig (h : Host) : outcome (Config * list string) :=
  envConfig ← loadEnvConfig h;
  validateConfig h (mergeConfig (defaultConfig h) envConfig).

(** ** [String.prototype.replace] with a one-character pattern *)

(** The replacement text for one match: [$$] is a dollar, [$&] the match,
    a dollar and a backquote the text before the match, a dollar and a quote
    the text after it; the pattern has no groups, so any other dollar stays
    as it is. *)
Fixpoint substitution (matched before after replacement : string) : string :=
  match replacement with
  | String "$" (String c r as rest) =>
      if bool_decide (c = "$"%char) then
        String "$" (substitution matched before after r)
      else if bool_decide (c = "&"%char) then
        matched +:+ substitution matched before after r
      else if bool_decide (c = "`"%char) then
        before +:+ substitution matched before after r
      else if bool_decide (c = "'"%char) then
        after +:+ substitution matched before after r
      else String "$" (substitution matched before after rest)
  | String c r => String c (substitution matched before after r)
  | EmptyString => EmptyString
  end.

(** [before] is the part of the subject already passed. *)
Fixpoint replace_from (re : RegExp) (replacement before s : string) : string :=
  match s with
  | EmptyString => EmptyString
  | String c s' =>
      if re_class re c then
        substitution (String c "") before s' replacement
        +:+ (if re_global re
             then replace_from re replacement (before +:+ String c "") s'
             else s')
      else String c (replace_from re replacement (before +:+ String c "") s')
  end.

(** [s.replace(re, replacement)]. *)
Definition replace (re : RegExp) (replacement s : string) : string :=
  replace_from re replacement "" s.

(** ** [path.extname] and [path.parse(...).name] (POSIX) *)

(** The variables of the backward scan that [path.extname] and [path.parse]
    share. *)
Record scan := {
  startDot : Z;
  startPart : Z;
  end_ : Z;
  matchedSlash : bool;
  preDotState : Z;
  stopped : bool
}.

Definition scan_init : scan := {|
  startDot := -1; startPart := 0; end_ := -1;
  matchedSlash := true; preDotState := 0; stopped := false
|}.

(** One turn of the loop body at index [i] with code unit [code]. *)
Definition scan_step (st : scan) (ic : Z * ascii) : scan :=
  let '(i, code) := ic in
  if stopped st then st
  else if bool_decide (code = "/"%char) then
    if negb (matchedSlash st) then
      {| startDot := startDot st; startPart := i + 1; end_ := end_ st;
         matchedSlash := matchedSlash st; preDotState := preDotState st;
         stopped := true |}
    else st
  else
    let st1 :=
      if end_ st =? -1 then
        {| startDot := startDot st; startPart := startPart st; end_ := i + 1;
           matchedSlash := false; preDotState := preDotState st;
           stopped := false |}
      else st in
    if bool_decide (code = "."%char) then
      if startDot st1 =? -1 then
        {| startDot := i; startPart := startPart st1; end_ := end_ st1;
           matchedSlash := matchedSlash st1; preDotState := preDotState st1;
           stopped := false |}
      else
        {| startDot := startDot st1; startPart := startPart st1;
           end_ := end_ st1; matchedSlash := matchedSlash st1;
           preDotState := 1; stopped := false |}
    else if negb (startDot st1 =? -1) then
      {| startDot := startDot st1; startPart := startPart st1;
         end_ := end_ st1; matchedSlash := matchedSlash st1;
         preDotState := -1; stopped := false |}
    else st1.

(** The code units of a path with their indices. *)
Definition indexed (path : string) : list (Z * ascii) :=
  zip (Z.of_nat <$> seq 0 (String.length path)) (String.list_ascii_of_string path).

(** The loop [for (i = path.length - 1; i >= start; --i)]. *)
Definition run_scan (start : Z) (path : string) : scan :=
  foldl scan_step scan_init
        (reverse (filter (λ ic, start ≤ ic.1) (indexed path))).

(** The test that the last component has no extension. *)
Definition no_extension (st : scan) : bool :=
  (startDot st =? -1)
  || (preDotState st =? 0)
  || ((preDotState st =? 1)
      && (startDot st =? end_ st - 1)
      && (startDot st =? startPart st + 1)).

Definition extname (path : string) : string :=
  let st := run_scan 0 path in
  if (end_ st =? -1) || no_extension st then ""
  else JS.str_slice path (startDot st) (end_ st).

(** [path.parse(path).name]. *)
Definition parse_name (path : string) : string :=
  match path with
  | EmptyString => ""
  | String c _ =>
      let isAbsolute := bool_decide (c = "/"%char) in
      let st := run_scan (if isAbsolute then 1 else 0) path in
      if end_ st =? -1 then ""
      else
        let start :=
          if (startPart st =? 0) && isAbsolute then 1 else startPart st in
        if no_extension st then JS.str_slice path start (end_ st)
        else JS.str_slice path start (startDot st)
  end.

(** ** [sanitizeFilename] *)

Definition sanitizeFilename (filename : string) (config : FileConfig) : string :=
  let sz := sanitize config in
  let safe := replace (illegalChars sz) (replaceChar sz) filename in
  let basename := JS.toUpperCase (parse_name safe) in
  let safe :=
    if JS.arr_includes (reservedNames sz) basename then "_" +:+ safe
    else safe in
  if JS.len safe >? maxFilenameLength config then
    let ext := extname safe in
    let name :=
      JS.str_slice safe 0
        (maxFilenameLength config - JS.len ext
         - JS.len (truncateSuffix sz)) in
    name +:+ truncateSuffix sz +:+ ext
  else safe.

(** The name after the first two steps of [sanitizeFilename]: the
    replacement of illegal characters and the reserved-name prefix. *)
Definition safeName (filename : string) (config : FileConfig) : string :=
  let sz := sanitize config in
  let safe := replace (illegalChars sz) (replaceChar sz) filename in
  let basename := JS.toUpperCase (parse_name safe) in
  if JS.arr_includes (reservedNames sz) basename then "_" +:+ safe else safe.

(** A host with no environment variables and an empty file system, for the
    examples. *)
Definition bare_host : Host := {|
  env := ∅;
  existsSync := λ _, false;
  homeDownloads := "/home/user/Downloads";
  compileClass := λ _, None
|}.

(** ** [comments.ts]: comments and responses *)

(** The [Comment] interface: every field is optional. *)
Record Comment := {
  id : option string;
  text : option string;
  author : option string;
  author_id : option string;
  author_url : option string;
  author_is_uploader : option bool;
  author_is_verified : option bool;
  like_count : option Z;
  is_pinned : option bool;
  is_favorited : option bool;
  parent : option string;
  timestamp : option Z;
  time_text : option string
}.

(** A comment as the external tool prints it: the known fields and any
    number of other keys. *)
Record RawComment := {
  known : Comment;
  others : list (string * string)
}.

Record CommentsResponse := {
  count : Z;
  has_more : bool;
  comments : list Comment;
  _truncated : option bool;
  _message : option string
}.

Inductive CommentSortOrder := top | new.

Definition sortOrder_text (o : CommentSortOrder) : string :=
  match o with
  | top => "top"
  | new => "new"
  end.

(** ** [JSON.stringify(value, null, 2)] *)

Definition dquote : string := String "034"%char "".
Definition newline : string := String "010"%char "".
Definition backslash : string := String "092"%char "".

Definition hex_digit (n : nat) : ascii :=
  if (n <? 10)%nat then ascii_of_nat (48 + n) else ascii_of_nat (87 + n).

(** The escape of one code unit inside a JSON string. *)
Definition json_escape (c : ascii) : string :=
  let n := nat_of_ascii c in
  if bool_decide (n = 34%nat) then backslash +:+ dquote
  else if bool_decide (n = 92%nat) then backslash +:+ backslash
  else if bool_decide (n = 8%nat) then backslash +:+ "b"
  else if bool_decide (n = 9%nat) then backslash +:+ "t"
  else if bool_decide (n = 10%nat) then backslash +:+ "n"
  else if bool_decide (n = 12%nat) then backslash +:+ "f"
  else if bool_decide (n = 13%nat) then backslash +:+ "r"
  else if (n <? 32)%nat then
    backslash +:+ "u00"
    +:+ String (hex_digit (n / 16)) (String (hex_digit (n mod 16)) "")
  else String c "".

Fixpoint json_escape_all (s : string) : string :=
  match s with
  | EmptyString => EmptyString
  | String c s' => json_escape c +:+ json_escape_all s'
  end.

Definition json_string (s : string) : string :=
  dquote +:+ json_escape_all s +:+ dquote.

Definition json_bool (b : bool) : string := if b then "true" else "false".

Definition json_number (z : Z) : string := JS.Z_to_string z.

(** An object whose closing brace stands at [indent]; a member whose value
    is [undefined] is left out. *)
Definition json_object (indent : string) (members : list (string * option string))
  : string :=
  let present :=
    omap (λ kv, (λ v, json_string kv.1 +:+ ": " +:+ v) <$> kv.2) members in
  match present with
  | [] => "{}"
  | _ =>
      "{" +:+ newline +:+ indent +:+ "  "
      +:+ JS.join ("," +:+ newline +:+ indent +:+ "  ") present
      +:+ newline +:+ indent +:+ "}"
  end.

Definition json_array (indent : string) (elements : list string) : string :=
  match elements with
  | [] => "[]"
  | _ =>
      "[" +:+ newline +:+ indent +:+ "  "
      +:+ JS.join ("," +:+ newline +:+ indent +:+ "  ") elements
      +:+ newline +:+ indent +:+ "]"
  end.

Definition json_comment (indent : string) (c : Comment) : string :=
  json_object indent
    [("id", json_string <$> id c);
     ("text", json_string <$> text c);
     ("author", json_string <$> author c);
     ("author_id", json_string <$> author_id c);
     ("author_url", json_string <$> author_url c);
     ("author_is_uploader", json_bool <$> author_is_uploader c);
     ("author_is_verified", json_bool <$> author_is_verified c);
     ("like_count", json_number <$> like_count c);
     ("is_pinned", json_bool <$> is_pinned c);
     ("is_favorited", json_bool <$> is_favorited c);
     ("parent", json_string <$> parent c);
     ("timestamp", json_number <$> timestamp c);
     ("time_text", json_string <$> time_text c)].

(** [JSON.stringify(response, null, 2)]. *)
Definition JSON_stringify (r : CommentsResponse) : string :=
  json_object ""
    [("count", Some (json_number (count r)));
     ("has_more", Some (json_bool (has_more r)));
     ("comments", Some (json_array "  " (json_comment "    " <$> comments r)));
     ("_truncated", json_bool <$> _truncated r);
     ("_message", json_string <$> _message r)].

(** ** [getVideoComments] *)

(** A value caught by [catch]: an [Error] with its message, or anything
    else. *)
Inductive caught :=
| ErrorValue (message : string)
| OtherValue.

(** The collaborators of [comments.ts]. *)
Record Tool := {
  (** [validateUrl] of [utils.ts] *)
  validateUrl : string → bool;
  (** [_spawnPromise(command, args)]: the standard output, or the value the
      promise is rejected with *)
  spawnPromise : string → list string → caught + string;
  (** [JSON.parse(output).comments]: the array, [undefined] when the key is
      missing, or the error that parsing throws *)
  parseComments : string → caught + option (list RawComment);
  (** [JSON.parse(commentsJson)] in [getVideoCommentsSummary] *)
  parseResponse : string → caught + CommentsResponse
}.

(** The argument vector of the external tool. *)
Definition toolArgs (url : string) (maxComments : nat)
    (sortOrder : CommentSortOrder) (_config : option Config) : list string :=
  ["--dump-json";
   "--no-warnings";
   "--no-check-certificate";
   "--write-comments";
   "--extractor-args";
   "youtube:comment_sort=" +:+ sortOrder_text sortOrder
     +:+ ";max_comments=" +:+ JS.nat_digits (N.of_nat maxComments)
     +:+ ",all,all";
   "--skip-download"]
  ++ match _config with
     | Some c => getCookieArgs c
     | None => []
     end
  ++ [url].

(** The object literal of the [map] callback. *)
Definition project (comment : RawComment) : Comment := {|
  id := id (known comment);
  text := text (known comment);
  author := author (known comment);
  author_id := author_id (known comment);
  author_url := author_url (known comment);
  author_is_uploader := author_is_uploader (known comment);
  author_is_verified := author_is_verified (known comment);
  like_count := like_count (known comment);
  is_pinned := is_pinned (known comment);
  is_favorited := is_favorited (known comment);
  parent := parent (known comment);
  timestamp := timestamp (known comment);
  time_text := time_text (known comment)
|}.

(** The response built before the size check. *)
Definition buildResponse (rawComments : list RawComment) (maxComments : nat)
  : CommentsResponse :=
  let comments := JS.slice rawComments 0 (Z.of_nat maxComments) in
  {| count := Z.of_nat (length comments);
     has_more := Z.of_nat (length rawComments) >? Z.of_nat maxComments;
     comments := project <$> comments;
     _truncated := None;
     _message := None |}.

Definition truncation_message (n : nat) : string :=
  "Response truncated to " +:+ JS.nat_digits (N.of_nat n)
  +:+ " comments due to size limits. Use smaller maxComments value.".

(** The response rebuilt in the body of the loop. *)
Definition truncatedResponse (truncatedComments : list Comment)
  : CommentsResponse :=
  {| count := Z.of_nat (length truncatedComments);
     has_more := true;
     comments := truncatedComments;
     _truncated := Some true;
     _message := Some (truncation_message (length truncatedComments)) |}.

(** The variables of the [while] loop, and a count of the turns taken. *)
Record loop_state := {
  result : string;
  truncatedComments : list Comment;
  turns : nat
}.

(** The [while] loop: it runs while the text is over the limit and more
    than one comment is left. *)
Equations? truncate_loop (characterLimit : Z) (st : loop_state)
  : loop_state by wf (length (truncatedComments st)) lt :=
  truncate_loop characterLimit st
    with decide (JS.len (result st) > characterLimit
                 ∧ (1 < length (truncatedComments st))%nat) => {
    | left _ :=
        let truncated := JS.slice (truncatedComments st) 0 (-1) in
        truncate_loop characterLimit
          {| result := JSON_stringify (truncatedResponse truncated);
             truncatedComments := truncated;
             turns := S (turns st) |};
    | right _ := st }.
Proof.
  subst truncated. unfold JS.slice, JS.rel_index. simpl.
  rewrite length_take, length_drop. lia.
Qed.

(** The success path after the tool's output is parsed. *)
Definition shapeResponse (rawComments : list RawComment) (maxComments : nat)
    (_config : option Config) : string :=
  let response := buildResponse rawComments maxComments in
  let result0 := JSON_stringify response in
  match _config with
  | Some c =>
      if JS.len result0 >? characterLimit (limits c) then
        result
          (truncate_loop (characterLimit (limits c))
             {| result := result0;
                truncatedComments := comments response;
                turns := 0 |})
      else result0
  | None => result0
  end.

(** The [catch] block: the message of the error that is thrown again. *)
Definition classifyError (url : string) (error : caught) : string :=
  match error with
  | ErrorValue message =>
      if JS.includes "Video unavailable" message
         || JS.includes "private" message then
        "Video is unavailable or private: " +:+ url
        +:+ ". Check the URL and video privacy settings."
      else if JS.includes "Unsupported URL" message
              || JS.includes "extractor" message then
        "Unsupported platform or video URL: " +:+ url
        +:+ ". Comments extraction is primarily supported for YouTube."
      else if JS.includes "network" message
              || JS.includes "Connection" message then
        "Network error while extracting comments. Check your internet connection and retry."
      else if JS.includes "comments are disabled" message
              || JS.includes "Comments are turned off" message then
        "Comments are disabled for this video: " +:+ url
      else if JS.includes "Sign in" message
              || JS.includes "age" message then
        "This video requires authentication to view comments. Configure cookies in your settings."
      else
        "Failed to extract video comments: " +:+ message
        +:+ ". Verify the URL is correct."
  | OtherValue => "Failed to extract video comments from " +:+ url
  end.

Definition getVideoComments (t : Tool) (url : string) (maxComments : nat)
    (sortOrder : CommentSortOrder) (_config : option Config) : outcome string :=
  if negb (validateUrl t url) then
    Throws "Invalid or unsupported URL format"
  else
    match spawnPromise t "yt-dlp" (toolArgs url maxComments sortOrder _config)
    with
    | inl error => Throws (classifyError url error)
    | inr output =>
        match parseComments t output with
        | inl error => Throws (classifyError url error)
        | inr parsed =>
            Returns (shapeResponse (default [] parsed) maxComments _config)
        end
    end.

(** ** [getVideoCommentsSummary] *)

(** The digits of a number, last digit first, with a comma after every
    third digit that has a digit after it. *)
Fixpoint group_digits (reversed : list ascii) (room : nat) : list ascii :=
  match reversed with
  | [] => []
  | d :: rest =>
      match room with
      | O => ","%char :: d :: group_digits rest 2
      | S room' => d :: group_digits rest room'
      end
  end.

(** [n.toLocaleString()] for a non-negative integer in the [en-US] locale,
    the one of the example in the source. *)
Definition toLocaleString (n : Z) : string :=
  String.string_of_list_ascii
    (reverse
       (group_digits
          (reverse (String.list_ascii_of_string (JS.nat_digits (Z.to_N n))))
          3)).

(** [if (flag)] on an optional boolean. *)
Definition flag (v : option bool) : bool := default false v.

(** The author line of one comment. *)
Definition authorLine (comment : Comment) : string :=
  let line := "Author: " +:+ JS.or_else (author comment) "Unknown" in
  let line :=
    if flag (author_is_uploader comment) then line +:+ " [UPLOADER]"
    else line in
  let line :=
    if flag (author_is_verified comment) then line +:+ " [VERIFIED]"
    else line in
  let line :=
    if flag (is_pinned comment) then line +:+ " [PINNED]" else line in
  let line :=
    match time_text comment with
    | Some t => if JS.nonempty t then line +:+ " (" +:+ t +:+ ")" else line
    | None => line
    end in
  match like_count comment with
  | Some n =>
      if n >? 0 then line +:+ " - " +:+ toLocaleString n +:+ " likes"
      else line
  | None => line
  end.

(** The lines pushed for one comment. *)
Definition commentLines (comment : Comment) : list string :=
  [authorLine comment]
  ++ match text comment with
     | Some t =>
         if JS.nonempty t then
           [if JS.len t >? 300 then JS.str_slice t 0 300 +:+ "..." else t]
         else []
     | None => []
     end
  ++ match parent comment with
     | Some p =>
         if JS.nonempty p && negb (bool_decide (p = "root"))
         then ["(Reply to comment " +:+ p +:+ ")"] else []
     | None => []
     end
  ++ [""].

(** The summary text; [rule] is the line of thirty box-drawing characters,
    whose code unit is above 255. *)
Definition summaryText (rule : string) (data : CommentsResponse) : string :=
  JS.join newline
    (["Video Comments (" +:+ JS.Z_to_string (count data) +:+ " shown)";
      rule; ""]
     ++ (comments data ≫= commentLines)
     ++ (if has_more data
         then ["---";
               "More comments available. Increase maxComments to see more."]
         else [])).

Definition getVideoCommentsSummary (t : Tool) (rule url : string)
    (maxComments : nat) (_config : option Config) : outcome string :=
  match getVideoComments t url maxComments top _config with
  | Throws message => Throws message
  | Returns commentsJson =>
      match parseResponse t commentsJson with
      | inl (ErrorValue message) => Throws message
      | inl OtherValue =>
          Throws ("Failed to generate comments summary for " +:+ url)
      | inr data => Returns (summaryText rule data)
      end
  end.

(** ** Configurations and collaborators for the examples *)

(** [{ ...config, cookies }]. *)
Definition with_cookies (config : Config) (ck : CookiesConfig) : Config :=
  {| file := file config; tools := tools config; download := download config;
     limits := limits config; cookies := ck |}.

(** [{ ...config, limits: { ...config.limits, characterLimit } }]. *)
Definition with_characterLimit (config : Config) (limit : Z) : Config :=
  {| file := file config; tools := tools config; download := download config;
     limits := {| characterLimit := limit;
                  maxTranscriptLength := maxTranscriptLength (limits config) |};
     cookies := cookies config |}.

(** A host whose environment is [vars], with an empty file system. *)
Definition host_with_env (vars : list (string * string)) : Host :=
  {| env := list_to_map vars;
     existsSync := λ _, false;
     homeDownloads := "/home/user/Downloads";
     compileClass := λ _, None |}.

(** A host whose environment sets the illegal-characters pattern to the
    class of the two angle brackets, and whose compiler knows that
    pattern. *)
Definition host_with_pattern : Host :=
  {| env := {[ "YTDLP_SANITIZE_ILLEGAL_CHARS" := "[<>]" ]};
     existsSync := λ _, false;
     homeDownloads := "/home/user/Downloads";
     compileClass := λ source,
       if bool_decide (source = "[<>]")
       then Some (λ c, bool_decide (c = "<"%char ∨ c = ">"%char))
       else None |}.

(** A tool that accepts every URL and prints a document whose comments are
    [raw]. *)
Definition tool_printing (raw : list RawComment) : Tool :=
  {| validateUrl := λ _, true;
     spawnPromise := λ _ _, inr "";
     parseComments := λ _, inr (Some raw);
     parseResponse := λ _, inl OtherValue |}.

(** A comment by the uploader, pinned, with 1234 likes. *)
Definition sample_comment : Comment :=
  {| id := Some "c1"; text := Some "First!"; author := Some "Ada";
     author_id := None; author_url := None;
     author_is_uploader := Some true; author_is_verified := None;
     like_count := Some 1234; is_pinned := Some true; is_favorited := None;
     parent := Some "root"; timestamp := Some 1700000000;
     time_text := Some "2 days ago" |}.

Definition sample_raw : RawComment :=
  {| known := sample_comment; others := [("_time_text", "2 days ago")] |}.

(** ** Structural misconfiguration, in the words of the specification *)

(** The six conditions under which the configuration is structurally
    invalid. *)
Definition structural_error (config : Config) : Prop :=
  maxFilenameLength (file config) < 5
  ∨ downloadsDir (file config) = ""
  ∨ tempDirPrefix (file config) = ""
  ∨ defaultResolution (download config) ∉ ["480p"; "720p"; "1080p"; "best"]
  ∨ defaultAudioFormat (download config) ∉ ["m4a"; "mp3"]
  ∨ is_language_tag (defaultSubtitleLanguage (download config)) = false.

(** ** Further definitions for the properties *)

(** The names of the environment variables that [loadEnvConfig] reads. *)
Definition config_variables : list string :=
  ["YTDLP_SANITIZE_REPLACE_CHAR"; "YTDLP_SANITIZE_TRUNCATE_SUFFIX";
   "YTDLP_SANITIZE_ILLEGAL_CHARS"; "YTDLP_SANITIZE_RESERVED_NAMES";
   "YTDLP_MAX_FILENAME_LENGTH"; "YTDLP_DOWNLOADS_DIR";
   "YTDLP_TEMP_DIR_PREFIX"; "YTDLP_DEFAULT_RESOLUTION";
   "YTDLP_DEFAULT_AUDIO_FORMAT"; "YTDLP_DEFAULT_SUBTITLE_LANG";
   "YTDLP_COOKIES_FILE"; "YTDLP_COOKIES_FROM_BROWSER"].

(** Every code unit of a string satisfies a test. *)
Fixpoint str_forall (P : ascii → bool) (s : string) : bool :=
  match s with
  | EmptyString => true
  | String c s' => P c && str_forall P s'
  end.

(** A code unit that the default pattern does not match. *)
Definition legal_char (c : ascii) : bool := negb (illegal_default_class c).

(** A code unit that a language tag may hold: a letter or a dash. *)
Definition tag_char (c : ascii) : bool :=
  JS.is_letter c || bool_decide (c = "-"%char).

(** The override with no key, the object literal [{}]. *)
Definition no_override : ConfigPartial :=
  {| p_file := None; p_tools := None; p_download := None;
     p_limits := None; p_cookies := None |}.

(** Every string leaf that [mergeConfig] takes with [||] is not empty, and
    every numeric leaf is not zero. *)
Definition leaves_truthy (config : Config) : Prop :=
  maxFilenameLength (file config) ≠ 0
  ∧ downloadsDir (file config) ≠ ""
  ∧ tempDirPrefix (file config) ≠ ""
  ∧ replaceChar (sanitize (file config)) ≠ ""
  ∧ truncateSuffix (sanitize (file config)) ≠ ""
  ∧ defaultResolution (download config) ≠ ""
  ∧ defaultAudioFormat (download config) ≠ ""
  ∧ defaultSubtitleLanguage (download config) ≠ ""
  ∧ characterLimit (limits config) ≠ 0
  ∧ maxTranscriptLength (limits config) ≠ 0.

(** The text that the size check looks at after [j] turns of the loop: the
    first serialization before any turn, and then the serialization of the
    truncated response that holds all but the last [j] retained comments. *)
Definition candidate_text (first : string) (retained : list Comment) (j : nat)
  : string :=
  match j with
  | O => first
  | S _ =>
      JSON_stringify
        (truncatedResponse (take (length retained - j) retained))
  end.

(** The response object whose serialization [getVideoComments] returns: the
    first response when the loop took no turn, and the last truncated
    response otherwise. *)
Definition finalResponse (rawComments : list RawComment) (maxComments : nat)
    (_config : option Config) : CommentsResponse :=
  let response := buildResponse rawComments maxComments in
  match _config with
  | Some c =>
      if JS.len (JSON_stringify response) >? characterLimit (limits c) then
        let st :=
          truncate_loop (characterLimit (limits c))
            {| result := JSON_stringify response;
               truncatedComments := comments response;
               turns := 0 |} in
        match turns st with
        | O => response
        | S _ => truncatedResponse (truncatedComments st)
        end
      else response
  | None => response
  end.

(** Two strings that differ at most in the case of the letters A to Z. *)
Definition same_but_case (s s' : string) : Prop :=
  JS.map_str JS.lower_char s = JS.map_str JS.lower_char s'.

(** A code unit that stands for itself between the brackets of a character
    class: not a backslash, a bracket, a caret or a dash. *)
Definition class_literal (c : ascii) : bool :=
  negb (bool_decide
          (c ∈ ["\"%char; "["%char; "]"%char; "^"%char; "-"%char])).

(** The source text of the pattern that is the class of the code units
    [members], written between brackets. *)
Definition class_source (members : list ascii) : string :=
  "[" +:+ String.string_of_list_ascii members +:+ "]".


(** * Properties *)

(** ** Strings and slices *)

Lemma nonempty_true (s : string) : JS.nonempty s = true ↔ s ≠ "".
Proof. unfold JS.nonempty. apply bool_decide_eq_true. Qed.

Lemma nonempty_false (s : string) : JS.nonempty s = false ↔ s = "".
Proof.
  unfold JS.nonempty. rewrite bool_decide_eq_false.
  destruct (decide (s = "")); tauto.
Qed.

Lemma str_app_cons (c : ascii) (s u : string) :
  String c s +:+ u = String c (s +:+ u).
Proof. reflexivity. Qed.

Lemma str_app_nil_l (u : string) : "" +:+ u = u.
Proof. reflexivity. Qed.

Lemma str_app_length (s u : string) :
  String.length (s +:+ u) = (String.length s + String.length u)%nat.
Proof.
  induction s as [|c s IH]; [done |].
  rewrite str_app_cons. simpl. by rewrite IH.
Qed.

Lemma str_app_assoc (s u v : string) : (s +:+ u) +:+ v = s +:+ (u +:+ v).
Proof.
  induction s as [|c s IH]; [done |].
  rewrite !str_app_cons. by rewrite IH.
Qed.

Lemma len_app (s u : string) : JS.len (s +:+ u) = JS.len s + JS.len u.
Proof. unfold JS.len. rewrite str_app_length. lia. Qed.

Lemma substring_length (n m : nat) (s : string) :
  (n + m ≤ String.length s)%nat → String.length (String.substring n m s) = m.
Proof.
  revert n m. induction s as [|c s IH]; intros n m H; simpl in *.
  - destruct n, m; simpl; lia.
  - destruct n as [|n].
    + destruct m as [|m]; simpl; [done |]. rewrite IH; [done | lia].
    + apply IH. lia.
Qed.

Lemma slice_prefix {A} (l : list A) (n : nat) :
  JS.slice l 0 (Z.of_nat n) = take n l.
Proof.
  unfold JS.slice, JS.rel_index.
  replace (Z.of_nat n <? 0) with false by (symmetry; apply Z.ltb_ge; lia).
  change (0 <? 0) with false. cbv iota.
  replace (Z.min 0 (Z.of_nat (length l))) with 0 by lia.
  change (Z.to_nat 0) with 0%nat. rewrite drop_0, Z.sub_0_r.
  destruct (Z.min_spec (Z.of_nat n) (Z.of_nat (length l))) as [[? ->]|[? ->]].
  - by rewrite Nat2Z.id.
  - rewrite Nat2Z.id. rewrite !take_ge; [done | lia | lia].
Qed.

Lemma slice_drop_last {A} (l : list A) :
  JS.slice l 0 (-1) = take (length l - 1) l.
Proof.
  unfold JS.slice, JS.rel_index.
  change (0 <? 0) with false. change (-1 <? 0) with true. cbv iota.
  replace (Z.min 0 (Z.of_nat (length l))) with 0 by lia.
  change (Z.to_nat 0) with 0%nat. rewrite drop_0, Z.sub_0_r.
  f_equal. lia.
Qed.

(** ** [getCookieArgs] *)

(** C1, as the code has it.  For every configuration, [getCookieArgs]
    returns [--cookies F] when [cookies.file] is a non-empty string [F],
    whatever [cookies.fromBrowser] is; it returns [--cookies-from-browser B]
    when [cookies.file] is undefined or empty and [cookies.fromBrowser] is a
    non-empty string [B]; it returns the empty sequence when each field is
    undefined or empty.  The result is always empty or of exactly two
    elements. *)
Theorem getCookieArgs_contract (config : Config) :
  let ck := cookies config in
  (∀ F, cookies_file ck = Some F → F ≠ "" →
        getCookieArgs config = ["--cookies"; F])
  ∧ (∀ B, cookies_file ck = None ∨ cookies_file ck = Some "" →
          cookies_fromBrowser ck = Some B → B ≠ "" →
          getCookieArgs config = ["--cookies-from-browser"; B])
  ∧ (cookies_file ck = None ∨ cookies_file ck = Some "" →
     cookies_fromBrowser ck = None ∨ cookies_fromBrowser ck = Some "" →
     getCookieArgs config = [])
  ∧ (getCookieArgs config = [] ∨ length (getCookieArgs config) = 2%nat).
Proof.
  unfold getCookieArgs, cookieArgs. cbv zeta.
  destruct (cookies config) as [f b]; simpl.
  repeat split.
  - intros F -> HF. apply nonempty_true in HF. by rewrite HF.
  - intros B [-> | ->] -> HB; apply nonempty_true in HB; simpl; by rewrite HB.
  - intros [-> | ->] [-> | ->]; reflexivity.
  - destruct f as [f|], b as [b|]; simpl;
      repeat (match goal with |- context [JS.nonempty ?s] =>
                destruct (JS.nonempty s) end); simpl; auto.
Qed.

(** A configuration with an existing-looking browser and a non-empty cookie
    file: the witness of C1. *)
Lemma getCookieArgs_contract_witness :
  getCookieArgs
    (with_cookies (defaultConfig bare_host)
       {| cookies_file := Some "/tmp/cookies.txt";
          cookies_fromBrowser := Some "chrome" |})
  = ["--cookies"; "/tmp/cookies.txt"].
Proof.
  apply (proj1 (getCookieArgs_contract
                  (with_cookies (defaultConfig bare_host)
                     {| cookies_file := Some "/tmp/cookies.txt";
                        cookies_fromBrowser := Some "chrome" |}))).
  - reflexivity.
  - discriminate.
Defined.

(** C1 as stated fails when [cookies.file] is the empty string: the file
    does not take precedence, and the browser arguments are returned. *)
Lemma getCookieArgs_empty_file_counterexample :
  let config :=
    with_cookies (defaultConfig bare_host)
      {| cookies_file := Some ""; cookies_fromBrowser := Some "chrome" |} in
  cookies_file (cookies config) = Some ""
  ∧ getCookieArgs config = ["--cookies-from-browser"; "chrome"]
  ∧ getCookieArgs config ≠ ["--cookies"; ""].
Proof. repeat split. discriminate. Qed.

(** ** The size-ceiling loop *)

(** One turn of the loop, or none. *)
Lemma truncate_loop_step (L : Z) (st : loop_state) :
  truncate_loop L st =
  if decide (JS.len (result st) > L ∧ (1 < length (truncatedComments st))%nat)
  then
    truncate_loop L
      {| result :=
           JSON_stringify
             (truncatedResponse (JS.slice (truncatedComments st) 0 (-1)));
         truncatedComments := JS.slice (truncatedComments st) 0 (-1);
         turns := S (turns st) |}
  else st.
Proof.
  rewrite truncate_loop_equation_1.
  destruct (decide _); reflexivity.
Qed.

(** What the loop has done when it stops: [k] turns, each of which removed
    the last comment. *)
Lemma truncate_loop_spec (L : Z) (st : loop_state) :
  ∃ k : nat,
    turns (truncate_loop L st) = (turns st + k)%nat
    ∧ truncatedComments (truncate_loop L st)
      = take (length (truncatedComments st) - k) (truncatedComments st)
    ∧ (k ≤ length (truncatedComments st) - 1)%nat
    ∧ (k = 0%nat → truncate_loop L st = st)
    ∧ ((0 < k)%nat →
       result (truncate_loop L st)
       = JSON_stringify
           (truncatedResponse (truncatedComments (truncate_loop L st))))
    ∧ (JS.len (result (truncate_loop L st)) ≤ L
       ∨ (length (truncatedComments (truncate_loop L st)) ≤ 1)%nat)
    ∧ ((1 ≤ length (truncatedComments st))%nat →
       (1 ≤ length (truncatedComments (truncate_loop L st)))%nat).
Proof.
  remember (length (truncatedComments st)) as n eqn:Hn.
  revert st Hn.
  induction (lt_wf n) as [n _ IH]. intros st Hn.
  rewrite truncate_loop_step.
  destruct (decide _) as [[Hover Hmany]|Hstop].
  - set (st1 := {| result := _; truncatedComments := _; turns := _ |}).
    assert (Hlen1 : length (truncatedComments st1) = (n - 1)%nat).
    { subst st1 n. simpl. rewrite slice_drop_last, length_take. lia. }
    destruct (IH (n - 1)%nat ltac:(lia) st1 (eq_sym Hlen1))
      as (k & Ht & Hc & Hk & H0 & Hpos & Hexit & Hone).
    exists (S k). repeat split.
    + rewrite Ht. subst st1. simpl. lia.
    + rewrite Hc. subst st1. simpl.
      rewrite slice_drop_last, take_take, <- Hn. f_equal. lia.
    + lia.
    + discriminate.
    + intros _. destruct k as [|k].
      * rewrite (H0 eq_refl). reflexivity.
      * apply Hpos. lia.
    + exact Hexit.
    + intros _. apply Hone. lia.
  - exists 0%nat. repeat split.
    + lia.
    + rewrite Nat.sub_0_r. subst n. by rewrite take_ge.
    + lia.
    + lia.
    + destruct (Z.le_gt_cases (JS.len (result st)) L); [by left |].
      right. apply Nat.nlt_ge. intros ?. apply Hstop. split; [lia | lia].
    + subst n. auto.
Qed.

(** The state in which [getVideoComments] enters the loop. *)
Lemma truncate_loop_final (L : Z) (response : CommentsResponse) :
  ∃ (k : nat) (final : CommentsResponse),
    truncate_loop L
      {| result := JSON_stringify response;
         truncatedComments := comments response;
         turns := 0 |}
    = {| result := JSON_stringify final;
         truncatedComments := comments final;
         turns := k |}
    ∧ (k ≤ length (comments response) - 1)%nat
    ∧ comments final
      = take (length (comments response) - k) (comments response)
    ∧ (k = 0%nat → final = response)
    ∧ ((0 < k)%nat → final = truncatedResponse (comments final))
    ∧ (JS.len (JSON_stringify final) ≤ L
       ∨ (length (comments final) ≤ 1)%nat)
    ∧ ((1 ≤ length (comments response))%nat →
       (1 ≤ length (comments final))%nat).
Proof.
  destruct (truncate_loop_spec L
              {| result := JSON_stringify response;
                 truncatedComments := comments response;
                 turns := 0 |})
    as (k & Ht & Hc & Hk & H0 & Hpos & Hexit & Hone).
  simpl in *. exists k.
  destruct k as [|k].
  - exists response. rewrite (H0 eq_refl) in *. simpl in *.
    repeat split; try done. intros ?; lia.
  - specialize (Hpos ltac:(lia)).
    destruct (truncate_loop L _) as [res tc n] eqn:Hloop. simpl in *.
    exists (truncatedResponse tc). simpl. subst res n.
    repeat split; done.
Qed.

(** The count of the turns only grows. *)
Lemma truncate_loop_turns (L : Z) (st : loop_state) :
  (turns st ≤ turns (truncate_loop L st))%nat.
Proof.
  destruct (truncate_loop_spec L st) as (k & Ht & _). lia.
Qed.

(** Before each turn that the loop takes, the text it looks at is over the
    limit. *)
Lemma truncate_loop_first_fit (L : Z) (st : loop_state) (j : nat) :
  (j < turns (truncate_loop L st) - turns st)%nat →
  JS.len (candidate_text (result st) (truncatedComments st) j) > L.
Proof.
  remember (length (truncatedComments st)) as n eqn:Hn.
  revert st Hn j.
  induction (lt_wf n) as [n _ IH]. intros st Hn j.
  rewrite truncate_loop_step.
  destruct (decide _) as [[Hover Hmany]|Hstop]; [| lia].
  set (st1 := {| result := _; truncatedComments := _; turns := _ |}).
  assert (Hlen1 : length (truncatedComments st1) = (n - 1)%nat).
  { subst st1 n. simpl. rewrite slice_drop_last, length_take. lia. }
  intros Hj. destruct j as [|j]; [exact Hover |].
  assert (Hj1 : (j < turns (truncate_loop L st1) - turns st1)%nat)
    by (subst st1; simpl in *; lia).
  specialize (IH (n - 1)%nat ltac:(lia) st1 (eq_sym Hlen1) j Hj1).
  revert IH. subst st1. simpl.
  rewrite slice_drop_last, <- Hn.
  destruct j as [|j]; simpl.
  - done.
  - rewrite length_take, take_take, <- Hn.
    replace (((n - 1) `min` n - S j) `min` (n - 1))%nat
      with (n - S (S j))%nat by lia.
    done.
Qed.

(** ** [getVideoComments]: the success path *)

Lemma getVideoComments_success (t : Tool) (url : string) (maxComments : nat)
    (sortOrder : CommentSortOrder) (_config : option Config)
    (output : string) (parsed : option (list RawComment)) :
  validateUrl t url = true →
  spawnPromise t "yt-dlp" (toolArgs url maxComments sortOrder _config)
    = inr output →
  parseComments t output = inr parsed →
  getVideoComments t url maxComments sortOrder _config
  = Returns (shapeResponse (default [] parsed) maxComments _config).
Proof.
  intros Hurl Hspawn Hparse. unfold getVideoComments.
  by rewrite Hurl, Hspawn, Hparse.
Qed.

Lemma buildResponse_comments (rawComments : list RawComment) (maxComments : nat) :
  comments (buildResponse rawComments maxComments)
  = project <$> take maxComments rawComments.
Proof. unfold buildResponse. simpl. by rewrite slice_prefix. Qed.

Lemma buildResponse_has_more (rawComments : list RawComment) (maxComments : nat) :
  has_more (buildResponse rawComments maxComments) = true
  ↔ (maxComments < length rawComments)%nat.
Proof.
  unfold buildResponse. simpl.
  destruct (Z.gtb_spec (Z.of_nat (length rawComments)) (Z.of_nat maxComments));
    split; intros; try done; lia.
Qed.

(** C2, as the code has it.  When the first serialization is over the
    limit, the loop stops after [k] turns with [k] at most the number of
    source comments; the [k] turns removed exactly the last [k] retained
    comments; the text returned is the serialization of a response that
    fits the limit, or holds exactly one comment, or holds none because none
    was retained before the size check; the loop never removes the last
    comment; and when [k] is positive the response has [has_more] and
    [_truncated] true and carries a [_message]. *)
Theorem size_ceiling_loop (t : Tool) (url : string) (maxComments : nat)
    (sortOrder : CommentSortOrder) (config : Config)
    (output : string) (parsed : option (list RawComment)) :
  validateUrl t url = true →
  spawnPromise t "yt-dlp" (toolArgs url maxComments sortOrder (Some config))
    = inr output →
  parseComments t output = inr parsed →
  let rawComments := default [] parsed in
  let limit := characterLimit (limits config) in
  let response := buildResponse rawComments maxComments in
  JS.len (JSON_stringify response) > limit →
  ∃ (k : nat) (final : CommentsResponse),
    truncate_loop limit
      {| result := JSON_stringify response;
         truncatedComments := comments response;
         turns := 0 |}
    = {| result := JSON_stringify final;
         truncatedComments := comments final;
         turns := k |}
    ∧ getVideoComments t url maxComments sortOrder (Some config)
      = Returns (JSON_stringify final)
    ∧ (k ≤ length rawComments)%nat
    ∧ comments final
      = take (length (comments response) - k) (comments response)
    ∧ (JS.len (JSON_stringify final) ≤ limit
       ∨ length (comments final) = 1%nat
       ∨ comments response = [])
    ∧ (comments response ≠ [] → (1 ≤ length (comments final))%nat)
    ∧ (k = 0%nat → final = response)
    ∧ ((0 < k)%nat →
       count final = Z.of_nat (length (comments final))
       ∧ has_more final = true
       ∧ _truncated final = Some true
       ∧ is_Some (_message final)).
Proof.
  intros Hurl Hspawn Hparse rawComments limit response Hover.
  destruct (truncate_loop_final limit response)
    as (k & final & Hloop & Hk & Hc & H0 & Hpos & Hexit & Hone).
  exists k, final. split; [exact Hloop |]. split.
  { rewrite (getVideoComments_success _ _ _ _ _ _ _ Hurl Hspawn Hparse).
    unfold shapeResponse. fold rawComments response limit.
    destruct (Z.gtb_spec (JS.len (JSON_stringify response)) limit); [| lia].
    by rewrite Hloop. }
  assert (Hn : (length (comments response) ≤ length rawComments)%nat).
  { unfold response. rewrite buildResponse_comments, length_fmap, length_take.
    lia. }
  split; [lia |]. split; [exact Hc |]. split.
  { destruct Hexit as [?|Hle]; [by left |]. right.
    destruct (comments response) as [|c cs] eqn:Hcs; [by right |]. left.
    specialize (Hone ltac:(simpl; lia)). lia. }
  split.
  { intros Hne. apply Hone. destruct (comments response); [done | simpl; lia]. }
  split; [exact H0 |].
  intros Hk0. rewrite (Hpos Hk0). simpl. eauto.
Qed.

(** Three comments and a limit of 400 characters: two turns, one comment
    left. *)
Lemma size_ceiling_loop_witness :
  let config := with_characterLimit (defaultConfig bare_host) 400 in
  let raw := [sample_raw; sample_raw; sample_raw] in
  JS.len (JSON_stringify (buildResponse raw 5)) > 400
  ∧ ∃ (k : nat) (final : CommentsResponse),
      getVideoComments (tool_printing raw) "https://youtu.be/x" 5 top
        (Some config)
      = Returns (JSON_stringify final)
      ∧ (k ≤ 3)%nat.
Proof.
  intros config raw.
  assert (Hover : JS.len (JSON_stringify (buildResponse raw 5)) > 400)
    by (vm_compute; reflexivity).
  split; [exact Hover |].
  destruct (size_ceiling_loop (tool_printing raw) "https://youtu.be/x" 5 top
              config "" (Some raw) eq_refl eq_refl eq_refl Hover)
    as (k & final & _ & Hret & Hk & _).
  exists k, final. split; [exact Hret | exact Hk].
Defined.

(** C2 as stated fails when no comment is retained and the limit is below
    the size of the empty response: the text returned is over the limit and
    holds no comment. *)
Lemma size_ceiling_no_comment_counterexample :
  let config := with_characterLimit (defaultConfig bare_host) 10 in
  let response := buildResponse [] 20 in
  JS.len (JSON_stringify response) > characterLimit (limits config)
  ∧ getVideoComments (tool_printing []) "https://youtu.be/x" 20 top
      (Some config)
    = Returns (JSON_stringify response)
  ∧ comments response = []
  ∧ ¬ (JS.len (JSON_stringify response) ≤ characterLimit (limits config)
       ∨ length (comments response) = 1%nat).
Proof.
  repeat split.
  intros [H | H]; [| discriminate H].
  vm_compute in H. by apply H.
Qed.

(** C6.  The response built from the source array has [has_more] true
    exactly when the array is longer than [maxComments], and its comments
    are the first [maxComments] entries in source order; it is not marked
    as truncated.  The response that [getVideoComments] returns is that
    one when the size loop takes no turn, which is the case exactly when
    there is no configuration, the first text fits, or at most one comment
    is retained.  Otherwise it is the truncated response that holds the
    retained comments without the last [k], where [k] is the number of
    turns: every text before the [k]-th is over the limit and the [k]-th
    fits, unless a single comment is left.  So truncation can only force
    [has_more] to true: the returned [has_more] is true exactly when the
    source is longer than [maxComments] or the loop took a turn, and the
    returned comments are always the first entries of the source, in
    source order. *)
Theorem has_more_and_retained (t : Tool) (url : string) (maxComments : nat)
    (sortOrder : CommentSortOrder) (_config : option Config)
    (output : string) (parsed : option (list RawComment)) :
  validateUrl t url = true →
  spawnPromise t "yt-dlp" (toolArgs url maxComments sortOrder _config)
    = inr output →
  parseComments t output = inr parsed →
  let rawComments := default [] parsed in
  let retained := project <$> take maxComments rawComments in
  let response := buildResponse rawComments maxComments in
  let oversized :=
    match _config with
    | Some c =>
        JS.len (JSON_stringify response) > characterLimit (limits c)
        ∧ (1 < length retained)%nat
    | None => False
    end in
  (has_more response = true ↔ (maxComments < length rawComments)%nat)
  ∧ response
    = {| count := Z.of_nat (length retained);
         has_more := bool_decide (maxComments < length rawComments)%nat;
         comments := retained;
         _truncated := None;
         _message := None |}
  ∧ ∃ (k : nat) (final : CommentsResponse),
      getVideoComments t url maxComments sortOrder _config
      = Returns (JSON_stringify final)
      ∧ final
        = match k with
          | O => response
          | S _ => truncatedResponse (take (length retained - k) retained)
          end
      ∧ (k = 0%nat ↔ ¬ oversized)
      ∧ (k ≤ length retained - 1)%nat
      ∧ (∀ c, _config = Some c →
           (∀ j, (j < k)%nat →
                 JS.len (candidate_text (JSON_stringify response) retained j)
                 > characterLimit (limits c))
           ∧ (JS.len (JSON_stringify final) ≤ characterLimit (limits c)
              ∨ (length retained - k ≤ 1)%nat))
      ∧ (has_more final = true
         ↔ (maxComments < length rawComments)%nat ∨ oversized)
      ∧ comments final
        = project <$> take (maxComments `min` length rawComments - k)
                        rawComments.
Proof.
  intros Hurl Hspawn Hparse rawComments retained response oversized.
  assert (Hretained : comments response = retained)
    by apply buildResponse_comments.
  assert (Hprefix : ∀ k : nat,
    take (length retained - k) retained
    = project <$> take (maxComments `min` length rawComments - k)
                    rawComments).
  { intros k. unfold retained.
    rewrite length_fmap, length_take, <- fmap_take, take_take.
    do 2 f_equal. lia. }
  split; [apply buildResponse_has_more |].
  split.
  { unfold response, buildResponse, retained. simpl.
    rewrite slice_prefix, length_fmap. f_equal.
    destruct (Z.gtb_spec (Z.of_nat (length rawComments))
                (Z.of_nat maxComments)).
    - rewrite bool_decide_eq_true_2; [done | lia].
    - rewrite bool_decide_eq_false_2; [done | lia]. }
  rewrite (getVideoComments_success _ _ _ _ _ _ _ Hurl Hspawn Hparse).
  unfold shapeResponse. fold rawComments response.
  assert (Hnone : ¬ oversized →
    (∀ c, _config = Some c →
          JS.len (JSON_stringify response) ≤ characterLimit (limits c)
          ∨ (length retained ≤ 1)%nat) →
    ∃ (k : nat) (final : CommentsResponse),
      Returns (JSON_stringify response) = Returns (JSON_stringify final)
      ∧ final
        = match k with
          | O => response
          | S _ => truncatedResponse (take (length retained - k) retained)
          end
      ∧ (k = 0%nat ↔ ¬ oversized)
      ∧ (k ≤ length retained - 1)%nat
      ∧ (∀ c, _config = Some c →
           (∀ j, (j < k)%nat →
                 JS.len (candidate_text (JSON_stringify response) retained j)
                 > characterLimit (limits c))
           ∧ (JS.len (JSON_stringify final) ≤ characterLimit (limits c)
              ∨ (length retained - k ≤ 1)%nat))
      ∧ (has_more final = true
         ↔ (maxComments < length rawComments)%nat ∨ oversized)
      ∧ comments final
        = project <$> take (maxComments `min` length rawComments - k)
                        rawComments).
  { intros Hno Hexit. exists 0%nat, response.
    split; [done |]. split; [done |]. split; [done |]. split; [lia |].
    split.
    { intros c Hc. split; [intros j ?; lia |].
      destruct (Hexit c Hc) as [?|?]; [by left | right; lia]. }
    split.
    { pose proof (buildResponse_has_more rawComments maxComments) as Hm.
      fold response in Hm. tauto. }
    rewrite Hretained, <- Hprefix, Nat.sub_0_r. by rewrite take_ge. }
  destruct _config as [c|].
  2: { apply Hnone; [unfold oversized; tauto | done]. }
  destruct (Z.gtb_spec (JS.len (JSON_stringify response))
              (characterLimit (limits c))) as [Hover|Hfit].
  2: { apply Hnone.
       - unfold oversized. lia.
       - intros c' [= <-]. by left. }
  destruct (truncate_loop_final (characterLimit (limits c)) response)
    as (k & final & Hloop & Hk & Hc & H0 & Hpos & Hexit & _).
  pose proof (truncate_loop_first_fit (characterLimit (limits c))
                {| result := JSON_stringify response;
                   truncatedComments := comments response;
                   turns := 0 |}) as Hfirst.
  rewrite Hloop in *. cbn [result truncatedComments turns] in Hfirst.
  rewrite Hretained in *.
  destruct k as [|k].
  - rewrite (H0 eq_refl) in *. apply Hnone.
    + unfold oversized. rewrite Hretained in Hexit. lia.
    + intros c' [= <-]. by rewrite Hretained in Hexit.
  - specialize (Hpos ltac:(lia)). rewrite Hc in Hpos.
    simpl. exists (S k), final.
    split; [done |]. split; [exact Hpos |].
    split.
    { split; [done |]. intros Hno. exfalso. apply Hno.
      unfold oversized. lia. }
    split; [exact Hk |].
    split.
    { intros c' [= <-]. split.
      - intros j Hj. apply Hfirst. lia.
      - destruct Hexit as [?|Hle]; [by left |]. right.
        rewrite Hc, length_take in Hle. lia. }
    split.
    { rewrite Hpos. simpl. split; [| done]. intros _. right.
      unfold oversized. lia. }
    by rewrite Hc, Hprefix.
Qed.

(** Three source comments, [maxComments] five and a limit of 400
    characters: the source is not longer than [maxComments], and the size
    loop forces [has_more] to true. *)
Lemma has_more_and_retained_witness :
  let config := with_characterLimit (defaultConfig bare_host) 400 in
  let raw := [sample_raw; sample_raw; sample_raw] in
  has_more (buildResponse raw 5) = false
  ∧ ∃ final : CommentsResponse,
      getVideoComments (tool_printing raw) "https://youtu.be/x" 5 top
        (Some config)
      = Returns (JSON_stringify final)
      ∧ has_more final = true
      ∧ comments final `prefix_of` [sample_comment; sample_comment;
                                    sample_comment].
Proof.
  intros config raw.
  split; [reflexivity |].
  destruct (has_more_and_retained (tool_printing raw) "https://youtu.be/x" 5
              top (Some config) "" (Some raw) eq_refl eq_refl eq_refl)
    as (_ & _ & k & final & Hret & _ & _ & _ & _ & Hmore & Hcomments).
  exists final. split; [exact Hret |].
  split.
  - apply Hmore. right. split; [vm_compute; reflexivity | simpl; lia].
  - rewrite Hcomments, fmap_take.
    exact (prefix_take [sample_comment; sample_comment; sample_comment] _).
Defined.

(** C9.  Without a configuration the argument vector has no cookie
    arguments, and the text returned is the first serialization, whatever
    its length; the response has no [_truncated] and no [_message]. *)
Theorem no_config_no_ceiling (t : Tool) (url : string) (maxComments : nat)
    (sortOrder : CommentSortOrder)
    (output : string) (parsed : option (list RawComment)) :
  validateUrl t url = true →
  spawnPromise t "yt-dlp" (toolArgs url maxComments sortOrder None)
    = inr output →
  parseComments t output = inr parsed →
  let response := buildResponse (default [] parsed) maxComments in
  toolArgs url maxComments sortOrder None
  = ["--dump-json"; "--no-warnings"; "--no-check-certificate";
     "--write-comments"; "--extractor-args";
     "youtube:comment_sort=" +:+ sortOrder_text sortOrder
       +:+ ";max_comments=" +:+ JS.nat_digits (N.of_nat maxComments)
       +:+ ",all,all";
     "--skip-download"; url]
  ∧ getVideoComments t url maxComments sortOrder None
    = Returns (JSON_stringify response)
  ∧ _truncated response = None
  ∧ _message response = None.
Proof.
  intros Hurl Hspawn Hparse response.
  split; [reflexivity |].
  rewrite (getVideoComments_success _ _ _ _ _ _ _ Hurl Hspawn Hparse).
  repeat split.
Qed.

(** Three long comments and no configuration: all three are returned. *)
Lemma no_config_no_ceiling_witness :
  let raw := [sample_raw; sample_raw; sample_raw] in
  getVideoComments (tool_printing raw) "https://youtu.be/x" 5 top None
  = Returns (JSON_stringify (buildResponse raw 5))
  ∧ length (comments (buildResponse raw 5)) = 3%nat.
Proof.
  intros raw. split.
  - apply (no_config_no_ceiling (tool_printing raw) "https://youtu.be/x" 5
             top "" (Some raw) eq_refl eq_refl eq_refl).
  - reflexivity.
Defined.

(** C10.  When the response holds exactly one comment and its serialization
    is over the limit, the loop takes no turn and the first serialization is
    returned: [count] is one, [has_more] is the comparison of the source
    length with [maxComments], and there is no [_truncated] and no
    [_message]. *)
Theorem single_comment_returned_as_is (t : Tool) (url : string)
    (maxComments : nat) (sortOrder : CommentSortOrder) (config : Config)
    (output : string) (parsed : option (list RawComment)) :
  validateUrl t url = true →
  spawnPromise t "yt-dlp" (toolArgs url maxComments sortOrder (Some config))
    = inr output →
  parseComments t output = inr parsed →
  let rawComments := default [] parsed in
  let limit := characterLimit (limits config) in
  let response := buildResponse rawComments maxComments in
  length (comments response) = 1%nat →
  JS.len (JSON_stringify response) > limit →
  truncate_loop limit
    {| result := JSON_stringify response;
       truncatedComments := comments response;
       turns := 0 |}
  = {| result := JSON_stringify response;
       truncatedComments := comments response;
       turns := 0 |}
  ∧ getVideoComments t url maxComments sortOrder (Some config)
    = Returns (JSON_stringify response)
  ∧ count response = 1
  ∧ (has_more response = true ↔ (maxComments < length rawComments)%nat)
  ∧ _truncated response = None
  ∧ _message response = None.
Proof.
  intros Hurl Hspawn Hparse rawComments limit response Hone Hover.
  assert (Hloop :
    truncate_loop limit
      {| result := JSON_stringify response;
         truncatedComments := comments response;
         turns := 0 |}
    = {| result := JSON_stringify response;
         truncatedComments := comments response;
         turns := 0 |}).
  { rewrite truncate_loop_step.
    destruct (decide _) as [[_ Hmany]|_]; [| done].
    cbn [truncatedComments] in Hmany. lia. }
  split; [exact Hloop |]. split.
  { rewrite (getVideoComments_success _ _ _ _ _ _ _ Hurl Hspawn Hparse).
    unfold shapeResponse. fold rawComments response limit.
    destruct (Z.gtb_spec (JS.len (JSON_stringify response)) limit); [| lia].
    by rewrite Hloop. }
  split.
  { unfold response in *. unfold buildResponse in *. simpl in *.
    rewrite length_fmap in Hone. lia. }
  split; [apply buildResponse_has_more |]. done.
Qed.

(** One comment and a limit of 100 characters. *)
Lemma single_comment_returned_as_is_witness :
  let config := with_characterLimit (defaultConfig bare_host) 100 in
  JS.len (JSON_stringify (buildResponse [sample_raw] 5)) > 100
  ∧ getVideoComments (tool_printing [sample_raw]) "https://youtu.be/x" 5 top
      (Some config)
    = Returns (JSON_stringify (buildResponse [sample_raw] 5)).
Proof.
  intros config.
  assert (Hover : JS.len (JSON_stringify (buildResponse [sample_raw] 5)) > 100)
    by (vm_compute; reflexivity).
  split; [exact Hover |].
  apply (single_comment_returned_as_is (tool_printing [sample_raw])
           "https://youtu.be/x" 5 top config "" (Some [sample_raw])
           eq_refl eq_refl eq_refl eq_refl Hover).
Defined.

(** ** Error classification *)

(** A failure of the tool or of the parsing of its output, for a valid URL,
    is thrown again with the classified message. *)
Lemma getVideoComments_failure (t : Tool) (url : string) (maxComments : nat)
    (sortOrder : CommentSortOrder) (_config : option Config) (error : caught) :
  validateUrl t url = true →
  (spawnPromise t "yt-dlp" (toolArgs url maxComments sortOrder _config)
   = inl error
   ∨ ∃ output,
       spawnPromise t "yt-dlp" (toolArgs url maxComments sortOrder _config)
       = inr output
       ∧ parseComments t output = inl error) →
  getVideoComments t url maxComments sortOrder _config
  = Throws (classifyError url error).
Proof.
  intros Hurl [Hspawn | (output & Hspawn & Hparse)]; unfold getVideoComments;
    rewrite Hurl, Hspawn; simpl; [done | by rewrite Hparse].
Qed.

(** Five rules of two tests each, tried in order, and a default. *)
Lemma first_match_chain {A} (b1 c1 b2 c2 b3 c3 b4 c4 b5 c5 : bool)
    (a1 a2 a3 a4 a5 a6 : A) :
  let v :=
    if b1 || c1 then a1
    else if b2 || c2 then a2
    else if b3 || c3 then a3
    else if b4 || c4 then a4
    else if b5 || c5 then a5
    else a6 in
  let r1 := b1 = true ∨ c1 = true in
  let r2 := b2 = true ∨ c2 = true in
  let r3 := b3 = true ∨ c3 = true in
  let r4 := b4 = true ∨ c4 = true in
  let r5 := b5 = true ∨ c5 = true in
  (r1 → v = a1)
  ∧ (¬ r1 → r2 → v = a2)
  ∧ (¬ r1 → ¬ r2 → r3 → v = a3)
  ∧ (¬ r1 → ¬ r2 → ¬ r3 → r4 → v = a4)
  ∧ (¬ r1 → ¬ r2 → ¬ r3 → ¬ r4 → r5 → v = a5)
  ∧ (¬ r1 → ¬ r2 → ¬ r3 → ¬ r4 → ¬ r5 → v = a6).
Proof.
  cbv zeta.
  assert (Hor : ∀ a b : bool, a = true ∨ b = true ↔ a || b = true)
    by (intros [] []; simpl; intuition congruence).
  rewrite !Hor.
  destruct (b1 || c1), (b2 || c2), (b3 || c3), (b4 || c4), (b5 || c5);
    repeat split; intros; first [reflexivity | congruence].
Qed.

(** C3.  Every failure of the extraction is thrown again with a message
    chosen by the first rule that matches the message of the error, in the
    order: unavailable or private, unsupported, network, comments disabled,
    authentication, and otherwise the original message wrapped; a failure
    that is not an [Error] gives the generic message with the URL. *)
Theorem error_classification (t : Tool) (url : string) (maxComments : nat)
    (sortOrder : CommentSortOrder) (_config : option Config) (error : caught) :
  validateUrl t url = true →
  (spawnPromise t "yt-dlp" (toolArgs url maxComments sortOrder _config)
   = inl error
   ∨ ∃ output,
       spawnPromise t "yt-dlp" (toolArgs url maxComments sortOrder _config)
       = inr output
       ∧ parseComments t output = inl error) →
  ∃ thrown : string,
    getVideoComments t url maxComments sortOrder _config = Throws thrown
    ∧ (error = OtherValue →
       thrown = "Failed to extract video comments from " +:+ url)
    ∧ ∀ message, error = ErrorValue message →
        let has needle := JS.includes needle message = true in
        let rule1 := has "Video unavailable" ∨ has "private" in
        let rule2 := has "Unsupported URL" ∨ has "extractor" in
        let rule3 := has "network" ∨ has "Connection" in
        let rule4 :=
          has "comments are disabled" ∨ has "Comments are turned off" in
        let rule5 := has "Sign in" ∨ has "age" in
        (rule1 →
         thrown = "Video is unavailable or private: " +:+ url
                  +:+ ". Check the URL and video privacy settings.")
        ∧ (¬ rule1 → rule2 →
           thrown = "Unsupported platform or video URL: " +:+ url
                    +:+ ". Comments extraction is primarily supported for YouTube.")
        ∧ (¬ rule1 → ¬ rule2 → rule3 →
           thrown = "Network error while extracting comments. Check your internet connection and retry.")
        ∧ (¬ rule1 → ¬ rule2 → ¬ rule3 → rule4 →
           thrown = "Comments are disabled for this video: " +:+ url)
        ∧ (¬ rule1 → ¬ rule2 → ¬ rule3 → ¬ rule4 → rule5 →
           thrown = "This video requires authentication to view comments. Configure cookies in your settings.")
        ∧ (¬ rule1 → ¬ rule2 → ¬ rule3 → ¬ rule4 → ¬ rule5 →
           thrown = "Failed to extract video comments: " +:+ message
                    +:+ ". Verify the URL is correct.").
Proof.
  intros Hurl Hfail.
  exists (classifyError url error).
  split; [by apply getVideoComments_failure |].
  split; [by intros -> |].
  intros message ->. cbv zeta. unfold classifyError.
  apply first_match_chain.
Qed.

(** The tool fails on a private video. *)
Lemma error_classification_witness :
  let t :=
    {| validateUrl := λ _, true;
       spawnPromise := λ _ _, inl (ErrorValue "ERROR: This video is private");
       parseComments := λ _, inr None;
       parseResponse := λ _, inl OtherValue |} in
  getVideoComments t "https://youtu.be/x" 20 top None
  = Throws "Video is unavailable or private: https://youtu.be/x. Check the URL and video privacy settings.".
Proof.
  intros t.
  destruct (error_classification t "https://youtu.be/x" 20 top None
              (ErrorValue "ERROR: This video is private") eq_refl
              (or_introl eq_refl))
    as (thrown & Hthrown & _ & Hrules).
  rewrite Hthrown. f_equal.
  apply (proj1 (Hrules _ eq_refl)).
  right. reflexivity.
Defined.

(** ** Loading the configuration *)

Lemma env_truthy_nonempty (h : Host) (name value : string) :
  env_truthy h name = Some value → env h !! name = Some value ∧ value ≠ "".
Proof.
  unfold env_truthy. destruct (env h !! name) as [v|]; [| done].
  destruct (JS.nonempty v) eqn:Hv; [| done].
  intros [= ->]. split; [done |]. by apply nonempty_true.
Qed.

Lemma env_truthy_absent (h : Host) (name : string) :
  env h !! name = None → env_truthy h name = None.
Proof. unfold env_truthy. by intros ->. Qed.

Lemma or_else_truthy (v : option string) (d : string) :
  JS.or_else v d = match v with
                   | Some s => if decide (s = "") then d else s
                   | None => d
                   end.
Proof.
  destruct v as [s|]; [| done]. simpl. unfold JS.nonempty.
  destruct (decide (s = "")) as [->|Hs]; [done |].
  by rewrite bool_decide_eq_true_2.
Qed.

(** No environment variable reaches [limits]: [loadEnvConfig] never sets the
    key. *)
Lemma loadEnvConfig_limits (h : Host) (envConfig : ConfigPartial) :
  loadEnvConfig h = Returns envConfig → p_limits envConfig = None.
Proof.
  unfold loadEnvConfig.
  destruct (env_truthy h "YTDLP_SANITIZE_ILLEGAL_CHARS") as [src|]; simpl.
  - unfold RegExp_new. destruct (compileClass h src); simpl; [| done].
    by intros [= <-].
  - by intros [= <-].
Qed.

Lemma loadEnvConfig_cookies (h : Host) (envConfig : ConfigPartial) :
  loadEnvConfig h = Returns envConfig →
  p_cookies envConfig ≫= p_cookies_file = env_truthy h "YTDLP_COOKIES_FILE"
  ∧ p_cookies envConfig ≫= p_cookies_fromBrowser
    = env_truthy h "YTDLP_COOKIES_FROM_BROWSER".
Proof.
  unfold loadEnvConfig.
  assert (Hshape : ∀ a b : option string,
    (if JS.defined a || JS.defined b
     then Some {| p_cookies_file := a; p_cookies_fromBrowser := b |}
     else None) ≫= p_cookies_file = a
    ∧ (if JS.defined a || JS.defined b
       then Some {| p_cookies_file := a; p_cookies_fromBrowser := b |}
       else None) ≫= p_cookies_fromBrowser = b)
    by (intros [?|] [?|]; done).
  destruct (env_truthy h "YTDLP_SANITIZE_ILLEGAL_CHARS") as [src|]; simpl.
  - unfold RegExp_new. destruct (compileClass h src); simpl; [| done].
    intros [= <-]. apply Hshape.
  - intros [= <-]. apply Hshape.
Qed.

Lemma validateCookiesConfig_rest (h : Host) (config : Config) :
  file (validateCookiesConfig h config).1 = file config
  ∧ tools (validateCookiesConfig h config).1 = tools config
  ∧ download (validateCookiesConfig h config).1 = download config
  ∧ limits (validateCookiesConfig h config).1 = limits config.
Proof.
  unfold validateCookiesConfig.
  destruct (cookies_file (cookies config)) as [p|],
           (cookies_fromBrowser (cookies config)) as [b|]; simpl;
    repeat (match goal with |- context [if ?c then _ else _] =>
              destruct c end); done.
Qed.

(** Whatever the environment, a configuration that loads has the built-in
    limits. *)
Lemma loadConfig_limits_are_defaults (h : Host) (config : Config)
    (warnings : list string) :
  loadConfig h = Returns (config, warnings) →
  limits config = {| characterLimit := 25000; maxTranscriptLength := 50000 |}.
Proof.
  unfold loadConfig.
  destruct (loadEnvConfig h) as [envConfig|] eqn:Henv; simpl; [| done].
  apply loadEnvConfig_limits in Henv.
  unfold validateConfig.
  repeat (match goal with |- context [if ?c then _ else _] =>
            destruct c; [done |] end).
  intros [= Hres].
  pose proof (validateCookiesConfig_rest h
                (mergeConfig (defaultConfig h) envConfig)) as (_ & _ & _ & Hl).
  rewrite Hres in Hl. simpl in Hl. rewrite Hl.
  unfold mergeConfig. simpl. by rewrite Henv.
Qed.

Lemma or_else_env_truthy (h : Host) (name d : string) :
  JS.or_else (env_truthy h name) d = default d (env_truthy h name).
Proof.
  destruct (env_truthy h name) as [v|] eqn:Hv; [| done].
  apply env_truthy_nonempty in Hv as [_ Hv]. simpl.
  apply nonempty_true in Hv. by rewrite Hv.
Qed.

(** The leaves that the environment does reach: each is the value of one
    variable when that variable is set and not empty (and, for the
    resolution and the audio format, one of the allowed values), and the
    built-in default otherwise. *)
Lemma merged_leaves (h : Host) (envConfig : ConfigPartial) :
  loadEnvConfig h = Returns envConfig →
  let merged := mergeConfig (defaultConfig h) envConfig in
  downloadsDir (file merged)
  = default (homeDownloads h) (env_truthy h "YTDLP_DOWNLOADS_DIR")
  ∧ tempDirPrefix (file merged)
    = default "ytdlp-" (env_truthy h "YTDLP_TEMP_DIR_PREFIX")
  ∧ maxFilenameLength (file merged)
    = num_or (parseInt <$> env_truthy h "YTDLP_MAX_FILENAME_LENGTH") 50
  ∧ defaultSubtitleLanguage (download merged)
    = default "en" (env_truthy h "YTDLP_DEFAULT_SUBTITLE_LANG")
  ∧ defaultResolution (download merged)
    = match env_truthy h "YTDLP_DEFAULT_RESOLUTION" with
      | Some v =>
          if JS.arr_includes ["480p"; "720p"; "1080p"; "best"] v
          then v else "720p"
      | None => "720p"
      end
  ∧ defaultAudioFormat (download merged)
    = match env_truthy h "YTDLP_DEFAULT_AUDIO_FORMAT" with
      | Some v => if JS.arr_includes ["m4a"; "mp3"] v then v else "m4a"
      | None => "m4a"
      end
  ∧ cookies_file (cookies merged) = env_truthy h "YTDLP_COOKIES_FILE"
  ∧ cookies_fromBrowser (cookies merged)
    = env_truthy h "YTDLP_COOKIES_FROM_BROWSER"
  ∧ limits merged
    = {| characterLimit := 25000; maxTranscriptLength := 50000 |}.
Proof.
  intros Henv merged.
  pose proof (loadEnvConfig_limits _ _ Henv) as Hlimits.
  pose proof (loadEnvConfig_cookies _ _ Henv) as [Hfile Hbrowser].
  assert (Hrest :
    p_file envConfig ≫= p_downloadsDir = env_truthy h "YTDLP_DOWNLOADS_DIR"
    ∧ p_file envConfig ≫= p_tempDirPrefix
      = env_truthy h "YTDLP_TEMP_DIR_PREFIX"
    ∧ p_file envConfig ≫= p_maxFilenameLength
      = parseInt <$> env_truthy h "YTDLP_MAX_FILENAME_LENGTH"
    ∧ p_download envConfig ≫= p_defaultSubtitleLanguage
      = env_truthy h "YTDLP_DEFAULT_SUBTITLE_LANG"
    ∧ p_download envConfig ≫= p_defaultResolution
      = match env_truthy h "YTDLP_DEFAULT_RESOLUTION" with
        | Some v =>
            if JS.arr_includes ["480p"; "720p"; "1080p"; "best"] v
            then Some v else None
        | None => None
        end
    ∧ p_download envConfig ≫= p_defaultAudioFormat
      = match env_truthy h "YTDLP_DEFAULT_AUDIO_FORMAT" with
        | Some v => if JS.arr_includes ["m4a"; "mp3"] v then Some v else None
        | None => None
        end).
  { revert Henv. unfold loadEnvConfig.
    assert (Hshape : ∀ a b c : option string,
      let d := if JS.defined a || JS.defined b || JS.defined c
               then Some {| p_defaultResolution := a;
                            p_defaultAudioFormat := b;
                            p_defaultSubtitleLanguage := c |}
               else None in
      d ≫= p_defaultSubtitleLanguage = c
      ∧ d ≫= p_defaultResolution = a
      ∧ d ≫= p_defaultAudioFormat = b)
      by (intros [?|] [?|] [?|]; done).
    destruct (env_truthy h "YTDLP_SANITIZE_ILLEGAL_CHARS") as [src|]; simpl.
    - unfold RegExp_new. destruct (compileClass h src); simpl; [| done].
      intros [= <-]. simpl. repeat split; apply Hshape.
    - intros [= <-]. simpl. repeat split; apply Hshape. }
  destruct Hrest as (Hdir & Htmp & Hmax & Hlang & Hres & Haudio).
  unfold merged, mergeConfig. simpl.
  rewrite Hdir, Htmp, Hmax, Hlang, Hres, Haudio, Hfile, Hbrowser, Hlimits.
  rewrite !or_else_env_truthy. simpl.
  repeat split; try done.
  - destruct (env_truthy h "YTDLP_DEFAULT_RESOLUTION") as [v|] eqn:Hv; [| done].
    destruct (JS.arr_includes _ v) eqn:Hin; [| done]. simpl.
    apply env_truthy_nonempty in Hv as [_ Hv].
    apply nonempty_true in Hv. by rewrite Hv.
  - destruct (env_truthy h "YTDLP_DEFAULT_AUDIO_FORMAT") as [v|] eqn:Hv;
      [| done].
    destruct (JS.arr_includes _ v) eqn:Hin; [| done]. simpl.
    apply env_truthy_nonempty in Hv as [_ Hv].
    apply nonempty_true in Hv. by rewrite Hv.
  - by destruct (env_truthy h "YTDLP_COOKIES_FILE").
  - by destruct (env_truthy h "YTDLP_COOKIES_FROM_BROWSER").
Qed.

(** ** Validation *)

Lemma includes_prefix_app (t s u : string) :
  String.prefix t s = true → String.prefix t (s +:+ u) = true.
Proof.
  revert s. induction t as [|c t IH]; intros s H.
  - by destruct (s +:+ u).
  - destruct s as [|c' s]; [done |].
    rewrite str_app_cons. simpl in *.
    destruct (ascii_dec c c'); [by apply IH | done].
Qed.

Lemma includes_cons (t : string) (c : ascii) (s : string) :
  JS.includes t (String c s)
  = String.prefix t (String c s) || JS.includes t s.
Proof. reflexivity. Qed.

Lemma includes_app_r (t s u : string) :
  JS.includes t s = true → JS.includes t (s +:+ u) = true.
Proof.
  induction s as [|c s IH].
  - rewrite str_app_nil_l. destruct t; [| done]. intros _. by destruct u.
  - rewrite str_app_cons, !includes_cons, !orb_true_iff.
    intros [H | H]; [left | right; by apply IH].
    rewrite <- str_app_cons. by apply includes_prefix_app.
Qed.

Lemma cookie_file_warning_text (path : string) :
  JS.includes "Cookie file not found" (cookie_file_warning path) = true.
Proof. unfold cookie_file_warning. by apply includes_app_r. Qed.

Lemma browser_warning_text (browserName : string) :
  JS.includes "Invalid browser name" (browser_warning browserName) = true.
Proof. unfold browser_warning. by apply includes_app_r. Qed.

(** [validateConfig] throws exactly on a structural error. *)
Lemma validateConfig_throws (h : Host) (config : Config) :
  structural_error config → ∃ message, validateConfig h config = Throws message.
Proof.
  unfold structural_error, validateConfig, JS.arr_includes.
  intros Herr.
  repeat (match goal with |- context [if ?c then _ else _] =>
            destruct c eqn:?; [by eexists |] end).
  exfalso.
  repeat match goal with
         | H : negb _ = false |- _ => apply negb_false_iff in H
         | H : bool_decide _ = true |- _ => apply bool_decide_eq_true in H
         | H : JS.nonempty _ = true |- _ => apply nonempty_true in H
         | H : (_ <? _) = false |- _ => apply Z.ltb_ge in H
         end.
  destruct Herr as [?|[?|[?|[?|[?|?]]]]]; try done; try lia; congruence.
Qed.

Lemma validateConfig_returns (h : Host) (config : Config) :
  ¬ structural_error config →
  validateConfig h config = Returns (validateCookiesConfig h config).
Proof.
  unfold structural_error, validateConfig, JS.arr_includes.
  intros Hok.
  repeat (match goal with |- context [if ?c then _ else _] =>
            destruct c eqn:?; [exfalso |] end); [.. | done];
  repeat match goal with
         | H : negb _ = true |- _ => apply negb_true_iff in H
         | H : bool_decide _ = false |- _ => apply bool_decide_eq_false in H
         | H : JS.nonempty _ = false |- _ => apply nonempty_false in H
         | H : (_ <? _) = true |- _ => apply Z.ltb_lt in H
         end;
  apply Hok; tauto.
Qed.

(** The cookie validation on a configuration whose cookie fields, when
    defined, are not empty. *)
Lemma validateCookiesConfig_file (h : Host) (config : Config) (p : string) :
  cookies_file (cookies config) = Some p → p ≠ "" →
  if existsSync h p
  then cookies_file (cookies (validateCookiesConfig h config).1) = Some p
  else cookies_file (cookies (validateCookiesConfig h config).1) = None
       ∧ cookie_file_warning p ∈ (validateCookiesConfig h config).2.
Proof.
  intros Hp Hne. apply nonempty_true in Hne.
  unfold validateCookiesConfig. rewrite Hp, Hne. simpl.
  destruct (existsSync h p); simpl;
    destruct (cookies_fromBrowser (cookies config)) as [b|]; simpl;
    repeat (match goal with |- context [if ?c then _ else _] =>
              destruct c end); simpl; try done; split; try done; set_solver.
Qed.

Lemma validateCookiesConfig_browser (h : Host) (config : Config) (b : string) :
  cookies_fromBrowser (cookies config) = Some b → b ≠ "" →
  if decide (browser_token b ∈ VALID_BROWSERS)
  then cookies_fromBrowser (cookies (validateCookiesConfig h config).1)
       = Some b
  else cookies_fromBrowser (cookies (validateCookiesConfig h config).1) = None
       ∧ browser_warning (browser_token b)
         ∈ (validateCookiesConfig h config).2.
Proof.
  intros Hb Hne. apply nonempty_true in Hne.
  unfold validateCookiesConfig, JS.arr_includes. rewrite Hb, Hne. simpl.
  destruct (decide (browser_token b ∈ VALID_BROWSERS)) as [Hin|Hout].
  - rewrite (bool_decide_eq_true_2 _ Hin). simpl.
    destruct (cookies_file (cookies config)) as [p|]; simpl; [| done].
    by destruct (JS.nonempty p && negb (existsSync h p)).
  - rewrite (bool_decide_eq_false_2 _ Hout). simpl.
    destruct (cookies_file (cookies config)) as [p|]; simpl;
      [| split; [done | set_solver]].
    destruct (JS.nonempty p && negb (existsSync h p)); simpl;
      (split; [done | set_solver]).
Qed.

(** C4 fails on the code.  With the character-limit and
    max-transcript-length variables of the documentation set, the loaded
    configuration still has the built-in limits. *)
Theorem loadConfig_ignores_limit_variables :
  let h := host_with_env [("YTDLP_CHARACTER_LIMIT", "1000");
                          ("YTDLP_MAX_TRANSCRIPT_LENGTH", "2000")] in
  env h !! "YTDLP_CHARACTER_LIMIT" = Some "1000"
  ∧ env h !! "YTDLP_MAX_TRANSCRIPT_LENGTH" = Some "2000"
  ∧ ∃ config warnings,
      loadConfig h = Returns (config, warnings)
      ∧ characterLimit (limits config) = 25000
      ∧ maxTranscriptLength (limits config) = 50000.
Proof.
  intros h.
  split; [vm_compute; reflexivity |]. split; [vm_compute; reflexivity |].
  destruct (loadEnvConfig h) as [envConfig|] eqn:Henv;
    [| by vm_compute in Henv].
  assert (Hfine : ¬ structural_error (mergeConfig (defaultConfig h) envConfig)).
  { injection Henv as <-.
    intros [H|[H|[H|[H|[H|H]]]]].
    - by vm_compute in H.
    - by vm_compute in H.
    - by vm_compute in H.
    - apply H. apply (proj1 (bool_decide_eq_true _)). vm_compute. reflexivity.
    - apply H. apply (proj1 (bool_decide_eq_true _)). vm_compute. reflexivity.
    - by vm_compute in H. }
  destruct (validateCookiesConfig h (mergeConfig (defaultConfig h) envConfig))
    as [config warnings] eqn:Hv.
  assert (Hload : loadConfig h = Returns (config, warnings)).
  { unfold loadConfig. rewrite Henv. simpl.
    by rewrite (validateConfig_returns _ _ Hfine), Hv. }
  exists config, warnings. split; [exact Hload |].
  by rewrite (loadConfig_limits_are_defaults _ _ _ Hload).
Qed.

(** The part of a browser specifier before the first colon. *)
Lemma includes_colon_cons (c : ascii) (s : string) :
  JS.includes ":" (String c s) = false →
  c ≠ ":"%char ∧ JS.includes ":" s = false.
Proof.
  rewrite includes_cons. intros H. apply orb_false_iff in H as [Hp Hs].
  split; [| done]. intros ->. simpl in Hp. by destruct s.
Qed.

Lemma split_head_before_colon (name rest : string) :
  JS.includes ":" name = false →
  JS.split_head ":" (name +:+ ":" +:+ rest) = name.
Proof.
  unfold JS.split_head. induction name as [|c name IH]; intros Hno.
  - reflexivity.
  - apply includes_colon_cons in Hno as [Hc Hno].
    rewrite str_app_cons. simpl.
    rewrite (bool_decide_eq_false_2 _ Hc).
    specialize (IH Hno).
    destruct (JS.split_on ":" (name +:+ ":" +:+ rest)); by subst.
Qed.

Lemma split_head_no_colon (name : string) :
  JS.includes ":" name = false → JS.split_head ":" name = name.
Proof.
  unfold JS.split_head. induction name as [|c name IH]; intros Hno.
  - reflexivity.
  - apply includes_colon_cons in Hno as [Hc Hno]. simpl.
    rewrite (bool_decide_eq_false_2 _ Hc).
    specialize (IH Hno).
    destruct (JS.split_on ":" name); by subst.
Qed.

(** Three of the structural errors cannot come out of the merge of the
    defaults with the environment. *)
Lemma merged_never_fails_three (h : Host) (envConfig : ConfigPartial) :
  loadEnvConfig h = Returns envConfig →
  let merged := mergeConfig (defaultConfig h) envConfig in
  tempDirPrefix (file merged) ≠ ""
  ∧ defaultResolution (download merged) ∈ ["480p"; "720p"; "1080p"; "best"]
  ∧ defaultAudioFormat (download merged) ∈ ["m4a"; "mp3"].
Proof.
  intros Henv merged.
  pose proof (merged_leaves h envConfig Henv)
    as (_ & Htmp & _ & _ & Hres & Haudio & _).
  fold merged in Htmp, Hres, Haudio.
  rewrite Htmp, Hres, Haudio. repeat split.
  - destruct (env_truthy h "YTDLP_TEMP_DIR_PREFIX") as [v|] eqn:Hv; [| done].
    by apply env_truthy_nonempty in Hv as [_ ?].
  - destruct (env_truthy h "YTDLP_DEFAULT_RESOLUTION") as [v|];
      [| set_solver].
    unfold JS.arr_includes.
    destruct (bool_decide _) eqn:Hin; [| set_solver].
    by apply bool_decide_eq_true in Hin.
  - destruct (env_truthy h "YTDLP_DEFAULT_AUDIO_FORMAT") as [v|];
      [| set_solver].
    unfold JS.arr_includes.
    destruct (bool_decide _) eqn:Hin; [| set_solver].
    by apply bool_decide_eq_true in Hin.
Qed.

(** C5, as the code has it.  [validateConfig] throws on each of the six
    structural errors.  Through [loadConfig] only three of them can occur:
    the merged configuration never has an empty temporary-directory prefix
    nor a resolution or an audio format outside the allowed values, because
    [loadEnvConfig] drops such a value and the default is kept; and its
    downloads directory is empty only if the default one is.  The merged
    file-name length is the one parsed from the environment unless that is
    missing, zero or not a number, and then it is 50; the merged subtitle
    language is the one of the environment unless that is missing or
    empty, and then it is [en].  [loadConfig] throws exactly when the
    merged file-name length is below five, the merged downloads directory
    is empty, or the merged subtitle language fails the pattern.
    Otherwise [loadConfig] returns what the cookie
    validation returns, and that validation only clears fields and warns:
    a cookie file that does not exist is cleared with a warning that
    contains [Cookie file not found]; a browser specifier whose name, the
    part before the first colon, lower-cased, is not one of the nine valid
    names is cleared with a warning that contains [Invalid browser name];
    the other fields are kept. *)
Theorem validation_strict_and_lenient (h : Host) (envConfig : ConfigPartial) :
  loadEnvConfig h = Returns envConfig →
  let merged := mergeConfig (defaultConfig h) envConfig in
  let fatal :=
    maxFilenameLength (file merged) < 5
    ∨ downloadsDir (file merged) = ""
    ∨ is_language_tag (defaultSubtitleLanguage (download merged)) = false in
  (∀ config, structural_error config →
             ∃ message, validateConfig h config = Throws message)
  ∧ tempDirPrefix (file merged) ≠ ""
  ∧ defaultResolution (download merged) ∈ ["480p"; "720p"; "1080p"; "best"]
  ∧ defaultAudioFormat (download merged) ∈ ["m4a"; "mp3"]
  ∧ (homeDownloads h ≠ "" → downloadsDir (file merged) ≠ "")
  ∧ maxFilenameLength (file merged)
    = num_or (parseInt <$> env_truthy h "YTDLP_MAX_FILENAME_LENGTH") 50
  ∧ defaultSubtitleLanguage (download merged)
    = default "en" (env_truthy h "YTDLP_DEFAULT_SUBTITLE_LANG")
  ∧ (fatal ↔ ∃ message, loadConfig h = Throws message)
  ∧ (¬ fatal →
     ∃ config warnings,
       loadConfig h = Returns (config, warnings)
       ∧ (config, warnings) = validateCookiesConfig h merged
       ∧ file config = file merged
       ∧ download config = download merged
       ∧ limits config = limits merged
       ∧ (∀ p, cookies_file (cookies merged) = Some p →
               if existsSync h p
               then cookies_file (cookies config) = Some p
               else cookies_file (cookies config) = None
                    ∧ ∃ w, w ∈ warnings
                           ∧ JS.includes "Cookie file not found" w = true)
       ∧ (∀ b name,
            cookies_fromBrowser (cookies merged) = Some b →
            JS.includes ":" name = false →
            (b = name ∨ ∃ rest, b = name +:+ ":" +:+ rest) →
            if decide (JS.toLowerCase name ∈ VALID_BROWSERS)
            then cookies_fromBrowser (cookies config) = Some b
            else cookies_fromBrowser (cookies config) = None
                 ∧ ∃ w, w ∈ warnings
                        ∧ JS.includes "Invalid browser name" w = true)).
Proof.
  intros Henv merged fatal.
  destruct (merged_never_fails_three h envConfig Henv) as (Htmp & Hres & Haudio).
  fold merged in Htmp, Hres, Haudio.
  assert (Hiff : fatal ↔ structural_error merged).
  { unfold fatal, structural_error. tauto. }
  assert (Hload : loadConfig h = validateConfig h merged).
  { unfold loadConfig. by rewrite Henv. }
  split; [apply validateConfig_throws |].
  split; [exact Htmp |]. split; [exact Hres |]. split; [exact Haudio |].
  pose proof (merged_leaves h envConfig Henv)
    as (Hdir & _ & Hmax & Hlang & _ & _ & Hfile & Hbrowser & _).
  fold merged in Hdir, Hmax, Hlang, Hfile, Hbrowser.
  split.
  { intros Hhome. rewrite Hdir.
    destruct (env_truthy h "YTDLP_DOWNLOADS_DIR") as [v|] eqn:Hv; [| done].
    by apply env_truthy_nonempty in Hv as [_ ?]. }
  split; [exact Hmax |]. split; [exact Hlang |].
  split.
  { split.
    - intros Hf. rewrite Hload. apply validateConfig_throws. by apply Hiff.
    - intros [message Hthrows].
      destruct (decide fatal) as [Hf|Hf]; [exact Hf |].
      rewrite Hload, validateConfig_returns in Hthrows; [done |].
      intros Herr. by apply Hf, Hiff. }
  intros Hok.
  assert (Hfine : ¬ structural_error merged) by (intros Herr; by apply Hok, Hiff).
  destruct (validateCookiesConfig h merged) as [config warnings] eqn:Hv.
  exists config, warnings.
  pose proof (validateCookiesConfig_rest h merged) as (Hf & _ & Hd & Hl).
  rewrite Hv in Hf, Hd, Hl. simpl in Hf, Hd, Hl.
  split.
  { by rewrite Hload, (validateConfig_returns _ _ Hfine), Hv. }
  repeat split; try done.
  - intros p Hp.
    assert (Hne : p ≠ "").
    { rewrite Hfile in Hp. by apply env_truthy_nonempty in Hp as [_ ?]. }
    pose proof (validateCookiesConfig_file h merged p Hp Hne) as Hres'.
    rewrite Hv in Hres'. simpl in Hres'.
    destruct (existsSync h p); [done |].
    destruct Hres' as [Hnone Hw]. split; [done |].
    eexists. split; [exact Hw | apply cookie_file_warning_text].
  - intros b name Hb Hno Hform.
    assert (Hne : b ≠ "").
    { rewrite Hbrowser in Hb. by apply env_truthy_nonempty in Hb as [_ ?]. }
    assert (Htoken : browser_token b = JS.toLowerCase name).
    { unfold browser_token. destruct Hform as [-> | [rest ->]].
      - by rewrite split_head_no_colon.
      - by rewrite split_head_before_colon. }
    pose proof (validateCookiesConfig_browser h merged b Hb Hne) as Hres'.
    rewrite Hv, Htoken in Hres'. simpl in Hres'.
    destruct (decide _); [done |].
    destruct Hres' as [Hnone Hw]. split; [done |].
    eexists. split; [exact Hw | apply browser_warning_text].
Qed.

(** A cookie file that does not exist and an unknown browser: the
    configuration loads with both fields cleared and two warnings. *)
Lemma validation_strict_and_lenient_witness :
  let h := host_with_env [("YTDLP_COOKIES_FILE", "/nonexistent/cookies.txt");
                          ("YTDLP_COOKIES_FROM_BROWSER", "Netscape:Default")] in
  ∃ config warnings,
    loadConfig h = Returns (config, warnings)
    ∧ cookies_file (cookies config) = None
    ∧ cookies_fromBrowser (cookies config) = None
    ∧ length warnings = 2%nat.
Proof.
  intros h.
  destruct (loadEnvConfig h) as [envConfig|] eqn:Henv;
    [| by vm_compute in Henv].
  destruct (validation_strict_and_lenient h envConfig Henv)
    as (_ & _ & _ & _ & _ & _ & _ & _ & Hok).
  assert (Hfine :
    ¬ (maxFilenameLength
         (file (mergeConfig (defaultConfig h) envConfig)) < 5
       ∨ downloadsDir (file (mergeConfig (defaultConfig h) envConfig)) = ""
       ∨ is_language_tag
           (defaultSubtitleLanguage
              (download (mergeConfig (defaultConfig h) envConfig)))
         = false)).
  { injection Henv as <-. intros [H|[H|H]]; by vm_compute in H. }
  destruct (Hok Hfine) as (config & warnings & Hload & Hpair & _ & _ & _
                           & Hfile & Hbrowser).
  exists config, warnings. split; [exact Hload |].
  injection Henv as <-.
  specialize (Hfile "/nonexistent/cookies.txt" eq_refl).
  specialize (Hbrowser "Netscape:Default" "Netscape" eq_refl eq_refl
                (or_intror (ex_intro _ "Default" eq_refl))).
  simpl in Hfile.
  destruct (decide _) as [Hin|_] in Hbrowser.
  { exfalso. revert Hin. apply (proj1 (bool_decide_eq_false _)).
    vm_compute. reflexivity. }
  split; [apply Hfile |]. split; [apply Hbrowser |].
  by injection Hpair as _ ->.
Defined.

(** C5 as stated fails: an environment that asks for a file-name length
    of zero, an empty downloads directory, an empty temporary-directory
    prefix, and a resolution and an audio format outside the allowed
    values does not make [loadConfig] throw; the values are dropped and the
    configuration loads with the defaults and no warning. *)
Lemma dropped_values_load_counterexample :
  let h := host_with_env [("YTDLP_MAX_FILENAME_LENGTH", "0");
                          ("YTDLP_DOWNLOADS_DIR", "");
                          ("YTDLP_TEMP_DIR_PREFIX", "");
                          ("YTDLP_DEFAULT_RESOLUTION", "4k");
                          ("YTDLP_DEFAULT_AUDIO_FORMAT", "flac")] in
  env h !! "YTDLP_MAX_FILENAME_LENGTH" = Some "0"
  ∧ env h !! "YTDLP_DOWNLOADS_DIR" = Some ""
  ∧ env h !! "YTDLP_TEMP_DIR_PREFIX" = Some ""
  ∧ env h !! "YTDLP_DEFAULT_RESOLUTION" = Some "4k"
  ∧ env h !! "YTDLP_DEFAULT_AUDIO_FORMAT" = Some "flac"
  ∧ (∀ message, loadConfig h ≠ Throws message)
  ∧ ∃ config warnings,
      loadConfig h = Returns (config, warnings)
      ∧ warnings = []
      ∧ maxFilenameLength (file config) = 50
      ∧ downloadsDir (file config) = "/home/user/Downloads"
      ∧ tempDirPrefix (file config) = "ytdlp-"
      ∧ defaultResolution (download config) = "720p"
      ∧ defaultAudioFormat (download config) = "m4a".
Proof.
  intros h.
  do 5 (split; [vm_compute; reflexivity |]).
  destruct (loadEnvConfig h) as [envConfig|] eqn:Henv;
    [| by vm_compute in Henv].
  set (merged := mergeConfig (defaultConfig h) envConfig).
  assert (Hfine : ¬ structural_error merged).
  { subst merged. injection Henv as <-.
    intros [H|[H|[H|[H|[H|H]]]]].
    - by vm_compute in H.
    - by vm_compute in H.
    - by vm_compute in H.
    - apply H. apply (proj1 (bool_decide_eq_true _)). vm_compute. reflexivity.
    - apply H. apply (proj1 (bool_decide_eq_true _)). vm_compute. reflexivity.
    - by vm_compute in H. }
  assert (Hload : loadConfig h = Returns (validateCookiesConfig h merged)).
  { unfold loadConfig. rewrite Henv. simpl. fold merged.
    by rewrite (validateConfig_returns _ _ Hfine). }
  split; [intros message; by rewrite Hload |].
  exists (validateCookiesConfig h merged).1, (validateCookiesConfig h merged).2.
  split; [rewrite Hload; by destruct (validateCookiesConfig h merged) |].
  pose proof (validateCookiesConfig_rest h merged) as (Hf & _ & Hd & _).
  rewrite Hf, Hd. subst merged. injection Henv as <-.
  repeat split; vm_compute; reflexivity.
Qed.

(** ** Examples of the path, number and pattern functions *)

Example extname_mp4 : extname "video.final.mp4" = ".mp4".
Proof. reflexivity. Qed.

Example extname_hidden : extname ".bashrc" = "".
Proof. reflexivity. Qed.

Example extname_dir : extname "a.b/c" = "".
Proof. reflexivity. Qed.

Example extname_trailing_dot : extname "name." = ".".
Proof. reflexivity. Qed.

Example extname_dotdot : extname ".." = "".
Proof. reflexivity. Qed.

Example parse_name_mp4 : parse_name "/tmp/video.final.mp4" = "video.final".
Proof. reflexivity. Qed.

Example parse_name_con : parse_name "con.txt" = "con".
Proof. reflexivity. Qed.

Example sanitize_illegal :
  sanitizeFilename "a<b>:c.mp4" (file (defaultConfig bare_host)) = "a_b__c.mp4".
Proof. reflexivity. Qed.

Example sanitize_reserved :
  sanitizeFilename "con.txt" (file (defaultConfig bare_host)) = "_con.txt".
Proof. reflexivity. Qed.

Example parseInt_examples :
  parseInt "  42px" = Num 42 ∧ parseInt "-0x1F" = Num (-31)
  ∧ parseInt "abc" = NaN ∧ parseInt "" = NaN ∧ parseInt "08" = Num 8.
Proof. repeat split; reflexivity. Qed.

Example language_tags :
  is_language_tag "en" = true ∧ is_language_tag "zh-Hant-TW" = true
  ∧ is_language_tag "eng-US" = true ∧ is_language_tag "EN" = true
  ∧ is_language_tag "e" = false ∧ is_language_tag "en_US" = false
  ∧ is_language_tag "english" = false ∧ is_language_tag "en-USA" = false.
Proof. repeat split; reflexivity. Qed.

(** ** [sanitizeFilename] *)

Lemma sanitizeFilename_steps (filename : string) (config : FileConfig) :
  sanitizeFilename filename config
  = let safe := safeName filename config in
    if JS.len safe >? maxFilenameLength config then
      JS.str_slice safe 0
        (maxFilenameLength config - JS.len (extname safe)
         - JS.len (truncateSuffix (sanitize config)))
      +:+ truncateSuffix (sanitize config) +:+ extname safe
    else safe.
Proof. reflexivity. Qed.

Lemma len_nonneg (s : string) : 0 ≤ JS.len s.
Proof. unfold JS.len. lia. Qed.

Lemma str_slice_prefix_length (s : string) (k : Z) :
  0 ≤ k ≤ JS.len s → JS.len (JS.str_slice s 0 k) = k.
Proof.
  intros Hk. unfold JS.str_slice, JS.rel_index, JS.len in *.
  change (0 <? 0) with false.
  replace (k <? 0) with false by (symmetry; apply Z.ltb_ge; lia).
  cbv iota.
  replace (Z.min 0 (Z.of_nat (String.length s))) with 0 by lia.
  replace (Z.min k (Z.of_nat (String.length s))) with k by lia.
  rewrite Z.sub_0_r. change (Z.to_nat 0) with 0%nat.
  rewrite substring_length; lia.
Qed.

(** The part of C7 that holds: a name that is too long is cut to exactly
    [maxFilenameLength] code units, with the suffix and the extension at
    the end, when the extension and the suffix together fit in
    [maxFilenameLength]. *)
Lemma sanitizeFilename_exact_length (filename : string) (config : FileConfig) :
  let safe := safeName filename config in
  let ext := extname safe in
  let suffix := truncateSuffix (sanitize config) in
  JS.len safe > maxFilenameLength config →
  JS.len ext + JS.len suffix ≤ maxFilenameLength config →
  JS.len (sanitizeFilename filename config) = maxFilenameLength config
  ∧ sanitizeFilename filename config
    = JS.str_slice safe 0 (maxFilenameLength config - JS.len ext - JS.len suffix)
      +:+ suffix +:+ ext.
Proof.
  intros safe ext suffix Hlong Hfit.
  rewrite sanitizeFilename_steps. fold safe. cbv zeta.
  destruct (Z.gtb_spec (JS.len safe) (maxFilenameLength config)); [| lia].
  split; [| done].
  pose proof (len_nonneg ext). pose proof (len_nonneg suffix).
  subst ext suffix.
  rewrite !len_app, str_slice_prefix_length; lia.
Qed.

(** A name that is short enough keeps the form of the first two steps. *)
Lemma sanitizeFilename_short (filename : string) (config : FileConfig) :
  JS.len (safeName filename config) ≤ maxFilenameLength config →
  sanitizeFilename filename config = safeName filename config.
Proof.
  intros Hshort. rewrite sanitizeFilename_steps. cbv zeta.
  destruct (Z.gtb_spec (JS.len (safeName filename config))
              (maxFilenameLength config)); [lia | done].
Qed.

(** C7 fails on the code.  With the default configuration, a title whose
    last dot is followed by 64 characters has an extension longer than
    [maxFilenameLength]; the end of the slice is negative, and the result
    has 117 code units instead of 50. *)
Theorem sanitizeFilename_long_extension :
  let config := file (defaultConfig bare_host) in
  let name :=
    "Dr. Strangelove or How I Learned to Stop Worrying and Love the Bomb" in
  maxFilenameLength config = 50
  ∧ JS.len name = 67
  ∧ extname name
    = ". Strangelove or How I Learned to Stop Worrying and Love the Bomb"
  ∧ sanitizeFilename name config
    = "Dr. Strangelove or How I Learned to Stop Worrying.... Strangelove or How I Learned to Stop Worrying and Love the Bomb"
  ∧ JS.len (sanitizeFilename name config) = 117.
Proof. repeat split; vm_compute; reflexivity. Qed.

(** A pattern taken from the environment is compiled without the [g] flag,
    so only the first illegal character is replaced. *)
Example sanitizeFilename_env_pattern :
  match loadConfig host_with_pattern with
  | Returns (config, _) => sanitizeFilename "a<b>c.mp4" (file config)
  | Throws message => message
  end = "a_b>c.mp4".
Proof. vm_compute. reflexivity. Qed.

(** The same title with a short extension is cut to exactly 50. *)
Example sanitizeFilename_mp4 :
  sanitizeFilename
    "Dr. Strangelove or How I Learned to Stop Worrying and Love the Bomb.mp4"
    (file (defaultConfig bare_host))
  = "Dr. Strangelove or How I Learned to Stop Wo....mp4".
Proof. vm_compute. reflexivity. Qed.

(** ** The author line of the summary *)

Lemma str_app_nil_r (s : string) : s +:+ "" = s.
Proof.
  induction s as [|c s IH]; [done |]. by rewrite str_app_cons, IH.
Qed.

Lemma piece_flag (v : option bool) (line tag : string) :
  (if flag v then line +:+ tag else line)
  = line +:+ (if decide (v = Some true) then tag else "").
Proof. destruct v as [[]|]; simpl; by rewrite ?str_app_nil_r. Qed.

Lemma piece_time (v : option string) (line : string) :
  match v with
  | Some t => if JS.nonempty t then line +:+ " (" +:+ t +:+ ")" else line
  | None => line
  end
  = line +:+ match v with
             | Some t => if decide (t = "") then "" else " (" +:+ t +:+ ")"
             | None => ""
             end.
Proof.
  destruct v as [t|]; [| by rewrite str_app_nil_r].
  unfold JS.nonempty. destruct (decide (t = "")) as [->|Ht].
  - by rewrite str_app_nil_r.
  - by rewrite (bool_decide_eq_true_2 _ Ht).
Qed.

Lemma piece_likes (v : option Z) (line : string) :
  match v with
  | Some n =>
      if n >? 0 then line +:+ " - " +:+ toLocaleString n +:+ " likes"
      else line
  | None => line
  end
  = line +:+ match v with
             | Some n =>
                 if decide (0 < n)
                 then " - " +:+ toLocaleString n +:+ " likes" else ""
             | None => ""
             end.
Proof.
  destruct v as [n|]; [| by rewrite str_app_nil_r].
  destruct (Z.gtb_spec n 0), (decide (0 < n)); try lia;
    by rewrite ?str_app_nil_r.
Qed.

(** C8, as the code has it.  The author line is [Author: ], then the author
    name when it is defined and not empty and [Unknown] otherwise, then the
    tags [UPLOADER], [VERIFIED] and [PINNED] in this order for the flags
    that are true, then the time text in parentheses when it is defined and
    not empty, then the like count with thousands separators and [likes]
    when it is positive.  So for a comment of the uploader that is pinned
    and has 1234 likes the line holds [UPLOADER], [PINNED] and [1,234 likes]
    in this order. *)
Theorem authorLine_format (comment : Comment) :
  authorLine comment
  = "Author: "
    +:+ match author comment with
        | Some a => if decide (a = "") then "Unknown" else a
        | None => "Unknown"
        end
    +:+ (if decide (author_is_uploader comment = Some true)
         then " [UPLOADER]" else "")
    +:+ (if decide (author_is_verified comment = Some true)
         then " [VERIFIED]" else "")
    +:+ (if decide (is_pinned comment = Some true) then " [PINNED]" else "")
    +:+ match time_text comment with
        | Some t => if decide (t = "") then "" else " (" +:+ t +:+ ")"
        | None => ""
        end
    +:+ match like_count comment with
        | Some n =>
            if decide (0 < n) then " - " +:+ toLocaleString n +:+ " likes"
            else ""
        | None => ""
        end
  ∧ (author_is_uploader comment = Some true →
     is_pinned comment = Some true →
     like_count comment = Some 1234 →
     ∃ before between after,
       authorLine comment
       = before +:+ "[UPLOADER]" +:+ between +:+ "[PINNED]" +:+ after
         +:+ "1,234 likes").
Proof.
  assert (Hformat :
    authorLine comment
    = "Author: "
      +:+ match author comment with
          | Some a => if decide (a = "") then "Unknown" else a
          | None => "Unknown"
          end
      +:+ (if decide (author_is_uploader comment = Some true)
           then " [UPLOADER]" else "")
      +:+ (if decide (author_is_verified comment = Some true)
           then " [VERIFIED]" else "")
      +:+ (if decide (is_pinned comment = Some true) then " [PINNED]" else "")
      +:+ match time_text comment with
          | Some t => if decide (t = "") then "" else " (" +:+ t +:+ ")"
          | None => ""
          end
      +:+ match like_count comment with
          | Some n =>
              if decide (0 < n) then " - " +:+ toLocaleString n +:+ " likes"
              else ""
          | None => ""
          end).
  { unfold authorLine. cbv zeta.
    rewrite piece_likes, piece_time, !piece_flag, or_else_truthy.
    by rewrite !str_app_assoc. }
  split; [exact Hformat |].
  intros Hup Hpin Hlikes. rewrite Hformat, Hup, Hpin, Hlikes.
  set (name := match author comment with
               | Some a => if decide (a = "") then "Unknown" else a
               | None => "Unknown"
               end).
  set (verified := if decide (author_is_verified comment = Some true)
                   then " [VERIFIED]" else "").
  set (time := match time_text comment with
               | Some t => if decide (t = "") then "" else " (" +:+ t +:+ ")"
               | None => ""
               end).
  clearbody name verified time.
  exists ("Author: " +:+ name +:+ " "), (verified +:+ " "), (time +:+ " - ").
  rewrite !str_app_assoc. reflexivity.
Qed.

(** The sample comment: by the uploader, pinned, 1234 likes. *)
Lemma authorLine_format_witness :
  authorLine sample_comment
  = "Author: Ada [UPLOADER] [PINNED] (2 days ago) - 1,234 likes"
  ∧ ∃ before between after,
      authorLine sample_comment
      = before +:+ "[UPLOADER]" +:+ between +:+ "[PINNED]" +:+ after
        +:+ "1,234 likes".
Proof.
  split; [reflexivity |].
  apply (proj2 (authorLine_format sample_comment)); reflexivity.
Defined.

(** C8 as stated fails for an author that is present and empty: the line
    has [Unknown] where the claim has the (empty) author name; and an empty
    time text, though present, is not printed. *)
Lemma authorLine_empty_author_counterexample :
  let comment :=
    {| id := None; text := None; author := Some ""; author_id := None;
       author_url := None; author_is_uploader := None;
       author_is_verified := None; like_count := None; is_pinned := None;
       is_favorited := None; parent := None; timestamp := None;
       time_text := Some "" |} in
  author comment = Some ""
  ∧ time_text comment = Some ""
  ∧ authorLine comment = "Author: Unknown"
  ∧ authorLine comment ≠ "Author: " +:+ "" +:+ " (" +:+ "" +:+ ")".
Proof. repeat split. discriminate. Qed.

(** * Further properties of [config.ts] *)

(** ** Loading without variables *)

(** When none of the variables that [loadEnvConfig] reads is set, and the
    home directory gives a downloads directory, [loadConfig] returns the
    default configuration and logs nothing. *)
Theorem loadConfig_without_variables (h : Host) :
  (∀ name, name ∈ config_variables → env h !! name = None) →
  homeDownloads h ≠ "" →
  loadConfig h = Returns (defaultConfig h, []).
Proof.
  intros Habsent Hhome.
  assert (Hnone : ∀ name, name ∈ config_variables →
                          env_truthy h name = None).
  { intros name Hin. apply env_truthy_absent. by apply Habsent. }
  assert (Hin : ∀ name, bool_decide (name ∈ config_variables) = true →
                        name ∈ config_variables)
    by (intros name; apply bool_decide_eq_true).
  unfold loadConfig, loadEnvConfig.
  rewrite !Hnone by (by apply Hin).
  rewrite !Habsent by (by apply Hin).
  simpl. unfold validateConfig, mergeConfig. simpl.
  apply nonempty_true in Hhome. rewrite Hhome. simpl.
  reflexivity.
Qed.

Lemma loadConfig_without_variables_witness :
  loadConfig bare_host = Returns (defaultConfig bare_host, []).
Proof.
  apply loadConfig_without_variables.
  - intros name _. apply lookup_empty.
  - discriminate.
Defined.

(** ** What [loadConfig] can throw *)

Lemma loadEnvConfig_throws (h : Host) (message : string) :
  loadEnvConfig h = Throws message →
  ∃ source,
    env_truthy h "YTDLP_SANITIZE_ILLEGAL_CHARS" = Some source
    ∧ compileClass h source = None.
Proof.
  unfold loadEnvConfig.
  destruct (env_truthy h "YTDLP_SANITIZE_ILLEGAL_CHARS") as [src|];
    simpl; [| done].
  unfold RegExp_new. destruct (compileClass h src) eqn:Hc; simpl; [done |].
  intros _. by exists src.
Qed.

(** [loadConfig] throws only for a file-name length below five, an empty
    downloads directory (which needs an empty default, since an empty
    variable is ignored), a subtitle language that is not a language tag, or
    an illegal-characters pattern that does not compile.  The checks of the
    temporary-directory prefix, the resolution and the audio format never
    fail: a bad value of these variables is dropped before the merge. *)
Theorem loadConfig_throws_only (h : Host) (message : string) :
  loadConfig h = Throws message →
  (message = "maxFilenameLength must be at least 5"
   ∧ ∃ v z, env_truthy h "YTDLP_MAX_FILENAME_LENGTH" = Some v
            ∧ parseInt v = Num z ∧ z < 5 ∧ z ≠ 0)
  ∨ (message = "downloadsDir must be specified"
     ∧ homeDownloads h = ""
     ∧ env_truthy h "YTDLP_DOWNLOADS_DIR" = None)
  ∨ (message = "Invalid defaultSubtitleLanguage"
     ∧ ∃ v, env_truthy h "YTDLP_DEFAULT_SUBTITLE_LANG" = Some v
            ∧ is_language_tag v = false)
  ∨ (∃ source,
       env_truthy h "YTDLP_SANITIZE_ILLEGAL_CHARS" = Some source
       ∧ compileClass h source = None).
Proof.
  unfold loadConfig.
  destruct (loadEnvConfig h) as [envConfig|msg] eqn:Henv; simpl.
  2: { intros _. right. right. right. by eapply loadEnvConfig_throws. }
  pose proof (merged_leaves h envConfig Henv)
    as (Hdir & Htmp & Hmax & Hlang & Hres & Haudio & _).
  unfold validateConfig.
  rewrite Hdir, Htmp, Hmax, Hlang, Hres, Haudio.
  destruct (Z.ltb_spec
              (num_or (parseInt <$> env_truthy h "YTDLP_MAX_FILENAME_LENGTH")
                      50) 5) as [Hsmall|_].
  { intros [= <-]. left. split; [done |].
    destruct (env_truthy h "YTDLP_MAX_FILENAME_LENGTH") as [v|];
      simpl in Hsmall; [| lia].
    destruct (parseInt v) as [|z] eqn:Hz; [lia |].
    destruct (Z.eqb_spec z 0); [lia |]. by exists v, z. }
  destruct (JS.nonempty (default (homeDownloads h)
                           (env_truthy h "YTDLP_DOWNLOADS_DIR"))) eqn:Hd;
    simpl.
  2: { intros [= <-]. right. left. split; [done |].
       apply nonempty_false in Hd.
       destruct (env_truthy h "YTDLP_DOWNLOADS_DIR") as [v|] eqn:Hv;
         simpl in Hd; [| done].
       apply env_truthy_nonempty in Hv as [_ Hv]. done. }
  destruct (JS.nonempty (default "ytdlp-"
                           (env_truthy h "YTDLP_TEMP_DIR_PREFIX"))) eqn:Ht;
    simpl.
  2: { apply nonempty_false in Ht.
       destruct (env_truthy h "YTDLP_TEMP_DIR_PREFIX") as [v|] eqn:Hv;
         simpl in Ht; [| done].
       apply env_truthy_nonempty in Hv as [_ Hv]. done. }
  assert (Hr : JS.arr_includes ["480p"; "720p"; "1080p"; "best"]
                 match env_truthy h "YTDLP_DEFAULT_RESOLUTION" with
                 | Some v =>
                     if JS.arr_includes ["480p"; "720p"; "1080p"; "best"] v
                     then v else "720p"
                 | None => "720p"
                 end = true).
  { destruct (env_truthy h "YTDLP_DEFAULT_RESOLUTION") as [v|]; [| done].
    by destruct (JS.arr_includes _ v) eqn:Hin. }
  rewrite Hr. simpl.
  assert (Ha : JS.arr_includes ["m4a"; "mp3"]
                 match env_truthy h "YTDLP_DEFAULT_AUDIO_FORMAT" with
                 | Some v =>
                     if JS.arr_includes ["m4a"; "mp3"] v then v else "m4a"
                 | None => "m4a"
                 end = true).
  { destruct (env_truthy h "YTDLP_DEFAULT_AUDIO_FORMAT") as [v|]; [| done].
    by destruct (JS.arr_includes _ v) eqn:Hin. }
  rewrite Ha. simpl.
  destruct (is_language_tag (default "en"
              (env_truthy h "YTDLP_DEFAULT_SUBTITLE_LANG"))) eqn:Hl; simpl;
    [done |].
  intros [= <-]. right. right. left. split; [done |].
  destruct (env_truthy h "YTDLP_DEFAULT_SUBTITLE_LANG") as [v|];
    simpl in Hl; [by exists v | done].
Qed.

(** A file-name length of three. *)
Lemma loadConfig_throws_only_witness :
  loadConfig (host_with_env [("YTDLP_MAX_FILENAME_LENGTH", "3")])
  = Throws "maxFilenameLength must be at least 5".
Proof.
  destruct (loadConfig (host_with_env [("YTDLP_MAX_FILENAME_LENGTH", "3")]))
    as [r|message] eqn:Hload; [by vm_compute in Hload |].
  destruct (loadConfig_throws_only _ _ Hload)
    as [[-> _] | [[_ [H _]] | [[_ (v & H & _)] | (src & H & _)]]].
  - reflexivity.
  - by vm_compute in H.
  - by vm_compute in H.
  - by vm_compute in H.
Defined.

(** ** What a loaded configuration satisfies *)

Lemma loadConfig_returns (h : Host) (config : Config) (warnings : list string) :
  loadConfig h = Returns (config, warnings) →
  ∃ envConfig,
    loadEnvConfig h = Returns envConfig
    ∧ ¬ structural_error (mergeConfig (defaultConfig h) envConfig)
    ∧ (config, warnings)
      = validateCookiesConfig h (mergeConfig (defaultConfig h) envConfig).
Proof.
  unfold loadConfig.
  destruct (loadEnvConfig h) as [envConfig|] eqn:Henv; simpl; [| done].
  intros Hv. exists envConfig. split; [done |].
  assert (Hok : ¬ structural_error (mergeConfig (defaultConfig h) envConfig)).
  { intros Herr.
    destruct (validateConfig_throws h _ Herr) as [msg Hmsg]. congruence. }
  split; [done |].
  rewrite (validateConfig_returns _ _ Hok) in Hv. congruence.
Qed.

Lemma loadConfig_builds (h : Host) (envConfig : ConfigPartial) :
  loadEnvConfig h = Returns envConfig →
  ¬ structural_error (mergeConfig (defaultConfig h) envConfig) →
  loadConfig h
  = Returns (validateCookiesConfig h (mergeConfig (defaultConfig h) envConfig)).
Proof.
  intros Henv Hfine. unfold loadConfig. rewrite Henv. simpl.
  by apply validateConfig_returns.
Qed.

(** Refutes a structural error of a closed configuration, one condition at
    a time. *)
Ltac structurally_fine :=
  let H := fresh "H" in
  intros [H|[H|[H|[H|[H|H]]]]];
  [ by vm_compute in H
  | by vm_compute in H
  | by vm_compute in H
  | apply H; apply (proj1 (bool_decide_eq_true _)); vm_compute; reflexivity
  | apply H; apply (proj1 (bool_decide_eq_true _)); vm_compute; reflexivity
  | by vm_compute in H ].

(** Loads the configuration of a closed host [h] and names its parts. *)
Ltac load_closed h config warnings Hload :=
  let e := fresh "e" in
  let Henv := fresh "Henv" in
  let Hfine := fresh "Hfine" in
  destruct (loadEnvConfig h) as [e|] eqn:Henv; [| by vm_compute in Henv];
  assert (Hfine : ¬ structural_error (mergeConfig (defaultConfig h) e))
    by (injection Henv as <-; structurally_fine);
  pose proof (loadConfig_builds h e Henv Hfine) as Hload;
  destruct (validateCookiesConfig h (mergeConfig (defaultConfig h) e))
    as [config warnings].

Lemma validateCookiesConfig_warnings (h : Host) (config : Config) :
  (length (validateCookiesConfig h config).2 ≤ 2)%nat.
Proof.
  unfold validateCookiesConfig.
  destruct (cookies_file (cookies config)) as [p|],
           (cookies_fromBrowser (cookies config)) as [b|]; simpl;
    repeat (match goal with |- context [if ?c then _ else _] =>
              destruct c end); simpl; lia.
Qed.

(** A configuration that [loadConfig] returns has no structural error, has
    the built-in limits, names a cookie file only if that file exists and a
    browser only if its token is a valid browser name, and comes with at
    most two warnings. *)
Theorem loadConfig_valid (h : Host) (config : Config) (warnings : list string) :
  loadConfig h = Returns (config, warnings) →
  ¬ structural_error config
  ∧ (∀ p, cookies_file (cookies config) = Some p →
          p ≠ "" ∧ existsSync h p = true)
  ∧ (∀ b, cookies_fromBrowser (cookies config) = Some b →
          b ≠ "" ∧ browser_token b ∈ VALID_BROWSERS)
  ∧ (length warnings ≤ 2)%nat.
Proof.
  intros Hload.
  destruct (loadConfig_returns _ _ _ Hload) as (e & Henv & Hok & Hpair).
  set (merged := mergeConfig (defaultConfig h) e) in *.
  pose proof (merged_leaves h e Henv)
    as (_ & _ & _ & _ & _ & _ & Hfile & Hbrowser & _).
  fold merged in Hfile, Hbrowser.
  pose proof (validateCookiesConfig_rest h merged) as (Hf & _ & Hd & _).
  pose proof (validateCookiesConfig_warnings h merged) as Hw.
  rewrite <- Hpair in Hf, Hd, Hw. simpl in Hf, Hd, Hw.
  split.
  { unfold structural_error in *. by rewrite Hf, Hd. }
  split.
  { intros p Hp.
    destruct (cookies_file (cookies merged)) as [q|] eqn:Hq.
    - assert (Hne : q ≠ "").
      { symmetry in Hfile. by apply env_truthy_nonempty in Hfile as [_ ?]. }
      pose proof (validateCookiesConfig_file h merged q Hq Hne) as Hres.
      rewrite <- Hpair in Hres. simpl in Hres.
      destruct (existsSync h q) eqn:Hex.
      + rewrite Hres in Hp. by injection Hp as <-.
      + destruct Hres as [Hres _]. congruence.
    - exfalso. revert Hpair Hp. unfold validateCookiesConfig. rewrite Hq.
      destruct (cookies_fromBrowser (cookies merged)) as [b|]; simpl;
        repeat (match goal with |- context [if ?c then _ else _] =>
                  destruct c end); intros [= -> _]; done. }
  split; [| done].
  intros b Hb.
  destruct (cookies_fromBrowser (cookies merged)) as [q|] eqn:Hq.
  - assert (Hne : q ≠ "").
    { symmetry in Hbrowser.
      by apply env_truthy_nonempty in Hbrowser as [_ ?]. }
    pose proof (validateCookiesConfig_browser h merged q Hq Hne) as Hres.
    rewrite <- Hpair in Hres. simpl in Hres.
    destruct (decide (browser_token q ∈ VALID_BROWSERS)).
    + rewrite Hres in Hb. by injection Hb as <-.
    + destruct Hres as [Hres _]. congruence.
  - exfalso. revert Hpair Hb. unfold validateCookiesConfig. rewrite Hq.
    destruct (cookies_file (cookies merged)) as [p|]; simpl;
      repeat (match goal with |- context [if ?c then _ else _] =>
                destruct c end); intros [= -> _]; done.
Qed.

(** A Firefox container and a cookie file that does not exist. *)
Lemma loadConfig_valid_witness :
  let h := host_with_env [("YTDLP_COOKIES_FILE", "/nonexistent/cookies.txt");
                          ("YTDLP_COOKIES_FROM_BROWSER", "firefox::work")] in
  ∃ config warnings,
    loadConfig h = Returns (config, warnings)
    ∧ ¬ structural_error config
    ∧ (length warnings ≤ 2)%nat.
Proof.
  intros h. load_closed h config warnings Hload.
  exists config, warnings. split; [done |].
  destruct (loadConfig_valid h config warnings Hload) as (Hok & _ & _ & Hw).
  by split.
Defined.

(** ** Cookie arguments from the environment *)

(** The cookie arguments of a loaded configuration, read off the
    environment and the file system: the cookie file when the variable is
    set and the file exists; otherwise the browser when that variable is set
    and names a valid browser; otherwise nothing.  So a cookie file that
    does not exist falls back to the browser. *)
Theorem cookie_args_from_environment (h : Host) (config : Config)
    (warnings : list string) :
  loadConfig h = Returns (config, warnings) →
  let from_browser :=
    match env_truthy h "YTDLP_COOKIES_FROM_BROWSER" with
    | Some b =>
        if decide (browser_token b ∈ VALID_BROWSERS)
        then ["--cookies-from-browser"; b] else []
    | None => []
    end in
  getCookieArgs config
  = match env_truthy h "YTDLP_COOKIES_FILE" with
    | Some f => if existsSync h f then ["--cookies"; f] else from_browser
    | None => from_browser
    end.
Proof.
  intros Hload from_browser.
  destruct (loadConfig_returns _ _ _ Hload) as (e & Henv & _ & Hpair).
  set (merged := mergeConfig (defaultConfig h) e) in *.
  pose proof (merged_leaves h e Henv)
    as (_ & _ & _ & _ & _ & _ & Hfile & Hbrowser & _).
  fold merged in Hfile, Hbrowser.
  assert (Hb :
    match cookies_fromBrowser (cookies config) with
    | Some b => if JS.nonempty b then ["--cookies-from-browser"; b] else []
    | None => []
    end = from_browser).
  { unfold from_browser.
    destruct (env_truthy h "YTDLP_COOKIES_FROM_BROWSER") as [b|] eqn:Hq.
    - pose proof Hq as Hne. apply env_truthy_nonempty in Hne as [_ Hne].
      pose proof (validateCookiesConfig_browser h merged b Hbrowser Hne)
        as Hres.
      rewrite <- Hpair in Hres. simpl in Hres.
      destruct (decide _).
      + rewrite Hres. apply nonempty_true in Hne. by rewrite Hne.
      + destruct Hres as [-> _]. done.
    - assert (cookies_fromBrowser (cookies config) = None) as ->; [| done].
      revert Hpair. unfold validateCookiesConfig. rewrite Hbrowser.
      destruct (cookies_file (cookies merged)) as [p|]; simpl;
        repeat (match goal with |- context [if ?c then _ else _] =>
                  destruct c end); by intros [= -> _]. }
  unfold getCookieArgs, cookieArgs.
  destruct (env_truthy h "YTDLP_COOKIES_FILE") as [f|] eqn:Hq.
  - pose proof Hq as Hne. apply env_truthy_nonempty in Hne as [_ Hne].
    pose proof (validateCookiesConfig_file h merged f Hfile Hne) as Hres.
    rewrite <- Hpair in Hres. simpl in Hres.
    destruct (existsSync h f).
    + rewrite Hres. apply nonempty_true in Hne. by rewrite Hne.
    + destruct Hres as [-> _]. exact Hb.
  - assert (cookies_file (cookies config) = None) as ->; [| exact Hb].
    revert Hpair. unfold validateCookiesConfig. rewrite Hfile.
    destruct (cookies_fromBrowser (cookies merged)) as [b|]; simpl;
      repeat (match goal with |- context [if ?c then _ else _] =>
                destruct c end); by intros [= -> _].
Qed.

(** The cookie file does not exist, the browser is valid: the browser
    arguments are used. *)
Lemma cookie_args_from_environment_witness :
  let h := host_with_env [("YTDLP_COOKIES_FILE", "/nonexistent/cookies.txt");
                          ("YTDLP_COOKIES_FROM_BROWSER", "firefox::work")] in
  ∃ config warnings,
    loadConfig h = Returns (config, warnings)
    ∧ getCookieArgs config = ["--cookies-from-browser"; "firefox::work"].
Proof.
  intros h. load_closed h config warnings Hload.
  exists config, warnings. split; [done |].
  rewrite (cookie_args_from_environment h config warnings Hload).
  vm_compute. reflexivity.
Defined.

(** ** The cookie validation *)

(** Validating twice changes nothing more: the second pass returns the
    configuration of the first and logs no warning. *)
Theorem validateCookiesConfig_idempotent (h : Host) (config : Config) :
  validateCookiesConfig h (validateCookiesConfig h config).1
  = ((validateCookiesConfig h config).1, []).
Proof.
  unfold validateCookiesConfig.
  destruct (cookies_file (cookies config)) as [p|],
           (cookies_fromBrowser (cookies config)) as [b|]; simpl.
  - destruct (JS.nonempty p && negb (existsSync h p)) eqn:Hp;
      destruct (JS.nonempty b
                && negb (JS.arr_includes VALID_BROWSERS (browser_token b)))
        eqn:Hb; simpl; rewrite ?Hp, ?Hb; reflexivity.
  - destruct (JS.nonempty p && negb (existsSync h p)) eqn:Hp; simpl;
      rewrite ?Hp; reflexivity.
  - destruct (JS.nonempty b
              && negb (JS.arr_includes VALID_BROWSERS (browser_token b)))
      eqn:Hb; simpl; rewrite ?Hb; reflexivity.
  - reflexivity.
Qed.

(** Only the browser name is checked, and it is checked without regard to
    case: a specifier [name:rest] is kept, verbatim, exactly when the
    lower-cased [name] is a valid browser, whatever [rest] is; and it gets
    the same verdict as the bare [name]. *)
Theorem browser_profile_not_inspected (h : Host) (config : Config)
    (name rest : string) :
  JS.includes ":" name = false →
  cookies_fromBrowser (cookies config) = Some (name +:+ ":" +:+ rest) →
  browser_token (name +:+ ":" +:+ rest) = JS.toLowerCase name
  ∧ browser_token name = JS.toLowerCase name
  ∧ cookies_fromBrowser (cookies (validateCookiesConfig h config).1)
    = if decide (JS.toLowerCase name ∈ VALID_BROWSERS)
      then Some (name +:+ ":" +:+ rest) else None.
Proof.
  intros Hno Hb.
  assert (Htoken : browser_token (name +:+ ":" +:+ rest) = JS.toLowerCase name)
    by (unfold browser_token; by rewrite split_head_before_colon).
  split; [exact Htoken |].
  split; [unfold browser_token; by rewrite split_head_no_colon |].
  assert (Hne : name +:+ ":" +:+ rest ≠ "") by (by destruct name).
  pose proof (validateCookiesConfig_browser h config _ Hb Hne) as Hres.
  rewrite Htoken in Hres.
  destruct (decide _); [done | by destruct Hres].
Qed.

(** An upper-case browser with a profile that holds spaces and a slash. *)
Lemma browser_profile_not_inspected_witness :
  let config :=
    with_cookies (defaultConfig bare_host)
      {| cookies_file := None;
         cookies_fromBrowser := Some "Chrome:~/My Profile/" |} in
  cookies_fromBrowser (cookies (validateCookiesConfig bare_host config).1)
  = Some "Chrome:~/My Profile/".
Proof.
  intros config.
  destruct (browser_profile_not_inspected bare_host config "Chrome"
              "~/My Profile/" eq_refl eq_refl) as (_ & _ & Hkept).
  rewrite Hkept. reflexivity.
Defined.

(** ** [mergeConfig] *)

Lemma or_else_nonempty (v : option string) (d : string) :
  d ≠ "" → JS.or_else v d ≠ "".
Proof.
  intros Hd. rewrite or_else_truthy.
  destruct v as [s|]; [| done]. by destruct (decide (s = "")).
Qed.

Lemma num_or_nonzero (v : option number) (d : Z) : d ≠ 0 → num_or v d ≠ 0.
Proof.
  intros Hd. destruct v as [[|z]|]; simpl; try done.
  by destruct (Z.eqb_spec z 0).
Qed.

(** Merging the empty override gives the base back.  The leaves that are
    merged with [||] cannot be blanked: when the string leaves of the base
    are not empty and its numeric leaves are not zero, the same holds after
    the merge, whatever the override holds.  The two cookie leaves are
    merged with [??] and can be blanked: a value that the override
    defines, the empty string too, replaces the value of the base, and
    only an undefined one keeps it.  The pattern and the two arrays are
    objects, so that a defined one always replaces the one of the base. *)
Theorem mergeConfig_leaves (base : Config) (override : ConfigPartial) :
  let merged := mergeConfig base override in
  let o_sanitize := p_file override ≫= p_sanitize in
  mergeConfig base no_override = base
  ∧ (leaves_truthy base → leaves_truthy merged)
  ∧ cookies_file (cookies merged)
    = match p_cookies override ≫= p_cookies_file with
      | Some v => Some v
      | None => cookies_file (cookies base)
      end
  ∧ cookies_fromBrowser (cookies merged)
    = match p_cookies override ≫= p_cookies_fromBrowser with
      | Some v => Some v
      | None => cookies_fromBrowser (cookies base)
      end
  ∧ (p_cookies override ≫= p_cookies_file = Some ""
     → cookies_file (cookies merged) = Some "")
  ∧ (p_cookies override ≫= p_cookies_fromBrowser = Some ""
     → cookies_fromBrowser (cookies merged) = Some "")
  ∧ illegalChars (sanitize (file merged))
    = default (illegalChars (sanitize (file base)))
        (o_sanitize ≫= p_illegalChars)
  ∧ reservedNames (sanitize (file merged))
    = default (reservedNames (sanitize (file base)))
        (o_sanitize ≫= p_reservedNames)
  ∧ required (tools merged)
    = default (required (tools base)) (p_tools override ≫= p_required).
Proof.
  intros merged o_sanitize.
  split.
  { by destruct base as [[? ? ? []] [] [] [] []]. }
  split.
  { unfold leaves_truthy. simpl.
    intros (H1 & H2 & H3 & H4 & H5 & H6 & H7 & H8 & H9 & H10).
    repeat split;
      first [by apply num_or_nonzero | by apply or_else_nonempty]. }
  unfold merged, mergeConfig, nullish. simpl.
  split; [done |]. split; [done |].
  split; [by intros -> |]. split; [by intros -> |].
  done.
Qed.

(** The default configuration with a cookie file, under an override that
    tries to blank the downloads directory, to zero the character limit
    and to blank the cookie file: the first two are kept, the cookie file
    is blanked. *)
Lemma mergeConfig_leaves_witness :
  let base :=
    with_cookies (defaultConfig bare_host)
      {| cookies_file := Some "/tmp/cookies.txt";
         cookies_fromBrowser := None |} in
  let override :=
    {| p_file := Some {| p_maxFilenameLength := Some NaN;
                         p_downloadsDir := Some "";
                         p_tempDirPrefix := None;
                         p_sanitize := None |};
       p_tools := None; p_download := None;
       p_limits := Some {| p_characterLimit := Some (Num 0);
                           p_maxTranscriptLength := None |};
       p_cookies := Some {| p_cookies_file := Some "";
                            p_cookies_fromBrowser := None |} |} in
  leaves_truthy (mergeConfig base override)
  ∧ cookies_file (cookies (mergeConfig base override)) = Some "".
Proof.
  intros base override.
  destruct (mergeConfig_leaves base override)
    as (_ & Hkept & _ & _ & Hblank & _).
  split.
  - apply Hkept. unfold leaves_truthy. simpl. repeat split; done.
  - apply Hblank. reflexivity.
Defined.

(** ** The subtitle-language pattern *)

Lemma dash_match {A} (c : ascii) (x y : A) :
  match c with
  | "-"%char => x
  | _ => y
  end = if bool_decide (c = "-"%char) then x else y.
Proof. destruct c as [[] [] [] [] [] [] [] []]; reflexivity. Qed.

Lemma tag_region_true (r : string) :
  tag_region r = true →
  r = "" ∨ ∃ a b, r = String "-" (String a (String b ""))
                  ∧ JS.is_letter a = true ∧ JS.is_letter b = true.
Proof.
  unfold tag_region.
  destruct r as [|c [|a [|b [|]]]]; try (by left); rewrite dash_match;
    destruct (bool_decide (c = "-"%char)) eqn:Hc; try done.
  apply bool_decide_eq_true in Hc as ->.
  intros H. apply andb_true_iff in H as [Ha Hb]. right. by exists a, b.
Qed.

Lemma tag_region_shape (r : string) :
  tag_region r = true →
  (String.length r ≤ 3)%nat ∧ str_forall tag_char r = true.
Proof.
  intros H. apply tag_region_true in H as [-> | (a & b & -> & Ha & Hb)].
  - split; [simpl; lia | done].
  - split; [simpl; lia |]. simpl. unfold tag_char. by rewrite Ha, Hb.
Qed.

Lemma tag_script_shape (r : string) :
  tag_script r = true →
  (String.length r ≤ 8)%nat ∧ str_forall tag_char r = true.
Proof.
  unfold tag_script.
  assert (Hregion : tag_region r = true →
            (String.length r ≤ 8)%nat ∧ str_forall tag_char r = true).
  { intros H. apply tag_region_shape in H as [? ?]. split; [lia | done]. }
  destruct r as [|c0 [|a [|b [|c [|d r']]]]]; try exact Hregion;
    rewrite dash_match;
    (destruct (bool_decide (c0 = "-"%char)) eqn:Hc; [| exact Hregion]);
    try exact Hregion.
  apply bool_decide_eq_true in Hc as ->.
  intros H. apply orb_true_iff in H as [H | H]; [| by apply Hregion].
  repeat (apply andb_true_iff in H as [H ?]).
  match goal with Hr : tag_region r' = true |- _ =>
    apply tag_region_shape in Hr as [? Hall] end.
  split; [simpl; lia |].
  simpl. unfold tag_char at 1 2 3 4 5.
  repeat match goal with Hl : JS.is_letter _ = true |- _ =>
           rewrite Hl; clear Hl end.
  simpl. exact Hall.
Qed.

(** A subtitle language that passes the validation has between two and
    eleven code units, all of them ASCII letters or dashes. *)
Theorem language_tag_shape (s : string) :
  is_language_tag s = true →
  (2 ≤ String.length s ≤ 11)%nat ∧ str_forall tag_char s = true.
Proof.
  unfold is_language_tag.
  destruct s as [|a [|b r]]; try done.
  intros H. apply andb_true_iff in H as [Hab Hrest].
  apply andb_true_iff in Hab as [Hla Hlb].
  assert (Ha : tag_char a = true) by (unfold tag_char; by rewrite Hla).
  assert (Hb : tag_char b = true) by (unfold tag_char; by rewrite Hlb).
  assert (Hscript : tag_script r = true →
    (2 ≤ String.length (String a (String b r)) ≤ 11)%nat
    ∧ str_forall tag_char (String a (String b r)) = true).
  { intros Hr. apply tag_script_shape in Hr as [? Hall].
    split; [simpl; lia |]. simpl. by rewrite Ha, Hb. }
  destruct r as [|c r']; [by apply Hscript |].
  apply orb_true_iff in Hrest as [Hr | Hr]; [| by apply Hscript].
  apply andb_true_iff in Hr as [Hc Hr'].
  apply tag_script_shape in Hr' as [? Hall].
  split; [simpl; lia |].
  simpl. rewrite Ha, Hb. unfold tag_char at 1. rewrite Hc. simpl. exact Hall.
Qed.

Lemma language_tag_shape_witness :
  (2 ≤ String.length "zh-Hant-TW" ≤ 11)%nat
  ∧ str_forall tag_char "zh-Hant-TW" = true.
Proof. apply language_tag_shape. reflexivity. Defined.

Section CaseMap.
Variable f : ascii → ascii.
Hypothesis f_letter : ∀ c, JS.is_letter (f c) = JS.is_letter c.
Hypothesis f_dash :
  ∀ c, bool_decide (f c = "-"%char) = bool_decide (c = "-"%char).

Lemma tag_region_map (r : string) :
  tag_region (JS.map_str f r) = tag_region r.
Proof.
  unfold tag_region.
  destruct r as [|c [|a [|b [|d r]]]]; simpl; [done | ..];
    rewrite !dash_match, f_dash, ?f_letter; reflexivity.
Qed.

Lemma tag_script_dash (r : string) :
  tag_script r
  = match r with
    | String c0 (String a (String b (String c (String d r')))) =>
        if bool_decide (c0 = "-"%char) then
          (JS.is_letter a && JS.is_letter b && JS.is_letter c
           && JS.is_letter d && tag_region r')
          || tag_region r
        else tag_region r
    | _ => tag_region r
    end.
Proof.
  unfold tag_script.
  destruct r as [|c0 [|a [|b [|c [|d r']]]]]; try reflexivity;
    rewrite dash_match; by destruct (bool_decide (c0 = "-"%char)).
Qed.

Lemma tag_script_map (r : string) :
  tag_script (JS.map_str f r) = tag_script r.
Proof.
  rewrite !tag_script_dash.
  destruct r as [|c0 [|a [|b [|c [|d r']]]]];
    try apply tag_region_map.
  change (JS.map_str f (String c0 (String a (String b (String c (String d r'))))))
    with (String (f c0) (String (f a) (String (f b) (String (f c)
            (String (f d) (JS.map_str f r')))))).
  cbv iota beta.
  rewrite f_dash, !f_letter, tag_region_map.
  change (String (f c0) (String (f a) (String (f b) (String (f c)
            (String (f d) (JS.map_str f r'))))))
    with (JS.map_str f (String c0 (String a (String b (String c (String d r')))))).
  by rewrite tag_region_map.
Qed.

Lemma is_language_tag_map (s : string) :
  is_language_tag (JS.map_str f s) = is_language_tag s.
Proof.
  unfold is_language_tag.
  destruct s as [|a [|b r]]; try reflexivity.
  cbn [JS.map_str]. rewrite !f_letter.
  destruct r as [|c r'].
  - reflexivity.
  - cbn [JS.map_str]. rewrite f_letter, tag_script_map.
    change (String (f c) (JS.map_str f r'))
      with (JS.map_str f (String c r')).
    by rewrite tag_script_map.
Qed.
End CaseMap.

Lemma upper_char_letter (c : ascii) :
  JS.is_letter (JS.upper_char c) = JS.is_letter c.
Proof. destruct c as [[] [] [] [] [] [] [] []]; reflexivity. Qed.

Lemma lower_char_letter (c : ascii) :
  JS.is_letter (JS.lower_char c) = JS.is_letter c.
Proof. destruct c as [[] [] [] [] [] [] [] []]; reflexivity. Qed.

Lemma upper_char_dash (c : ascii) :
  bool_decide (JS.upper_char c = "-"%char) = bool_decide (c = "-"%char).
Proof. destruct c as [[] [] [] [] [] [] [] []]; reflexivity. Qed.

Lemma lower_char_dash (c : ascii) :
  bool_decide (JS.lower_char c = "-"%char) = bool_decide (c = "-"%char).
Proof. destruct c as [[] [] [] [] [] [] [] []]; reflexivity. Qed.

(** The pattern of the subtitle language carries the [i] flag: two values
    that differ at most in the case of the letters A to Z get the same
    verdict. *)
Theorem language_tag_case_insensitive (s s' : string) :
  same_but_case s s' → is_language_tag s = is_language_tag s'.
Proof.
  unfold same_but_case. intros Hsame.
  rewrite <- (is_language_tag_map JS.lower_char
                lower_char_letter lower_char_dash s).
  rewrite <- (is_language_tag_map JS.lower_char
                lower_char_letter lower_char_dash s').
  by rewrite Hsame.
Qed.

(** A tag with a region, in two spellings. *)
Lemma language_tag_case_insensitive_witness :
  is_language_tag "ZH-hant-tw" = true.
Proof.
  rewrite (language_tag_case_insensitive "ZH-hant-tw" "zh-Hant-TW" eq_refl).
  reflexivity.
Defined.

(** ** [sanitizeFilename] *)

(** When the extension and the suffix together fit in [maxFilenameLength],
    the sanitized name never has more than [maxFilenameLength] code units:
    a longer name is cut to exactly that length and ends with the suffix and
    the extension, and a name that fits is returned after the first two
    steps with no cut. *)
Theorem sanitizeFilename_fits (filename : string) (config : FileConfig) :
  let safe := safeName filename config in
  let ext := extname safe in
  let suffix := truncateSuffix (sanitize config) in
  JS.len ext + JS.len suffix ≤ maxFilenameLength config →
  JS.len (sanitizeFilename filename config) ≤ maxFilenameLength config
  ∧ (JS.len safe > maxFilenameLength config →
     JS.len (sanitizeFilename filename config) = maxFilenameLength config
     ∧ ∃ base, sanitizeFilename filename config = base +:+ suffix +:+ ext)
  ∧ (JS.len safe ≤ maxFilenameLength config →
     sanitizeFilename filename config = safe).
Proof.
  intros safe ext suffix Hfit.
  assert (Hlong : JS.len safe > maxFilenameLength config →
     JS.len (sanitizeFilename filename config) = maxFilenameLength config
     ∧ ∃ base, sanitizeFilename filename config = base +:+ suffix +:+ ext).
  { intros Hlen.
    destruct (sanitizeFilename_exact_length filename config Hlen Hfit)
      as [Hexact Hform].
    split; [exact Hexact |]. eexists. exact Hform. }
  assert (Hshort : JS.len safe ≤ maxFilenameLength config →
     sanitizeFilename filename config = safe)
    by apply sanitizeFilename_short.
  split; [| by split].
  destruct (Z.le_gt_cases (JS.len safe) (maxFilenameLength config)) as [H|H].
  - by rewrite Hshort.
  - destruct (Hlong ltac:(lia)) as [-> _]. lia.
Qed.

Lemma sanitizeFilename_fits_witness :
  JS.len
    (sanitizeFilename
       "Dr. Strangelove or How I Learned to Stop Worrying and Love the Bomb.mp4"
       (file (defaultConfig bare_host)))
  ≤ 50.
Proof.
  apply (sanitizeFilename_fits
           "Dr. Strangelove or How I Learned to Stop Worrying and Love the Bomb.mp4"
           (file (defaultConfig bare_host))).
  vm_compute. discriminate.
Defined.

Lemma str_forall_app (P : ascii → bool) (s u : string) :
  str_forall P (s +:+ u) = str_forall P s && str_forall P u.
Proof.
  induction s as [|c s IH]; [done |].
  rewrite str_app_cons. simpl. by rewrite IH, andb_assoc.
Qed.

Lemma str_forall_substring (P : ascii → bool) (n m : nat) (s : string) :
  str_forall P s = true → str_forall P (String.substring n m s) = true.
Proof.
  revert n m. induction s as [|c s IH]; intros n m H.
  - by destruct n, m.
  - simpl in H. apply andb_true_iff in H as [Hc Hs].
    destruct n as [|n]; simpl.
    + destruct m as [|m]; [done |]. simpl. rewrite Hc. by apply IH.
    + by apply IH.
Qed.

Lemma str_forall_slice (P : ascii → bool) (s : string) (b e : Z) :
  str_forall P s = true → str_forall P (JS.str_slice s b e) = true.
Proof. intros H. unfold JS.str_slice. by apply str_forall_substring. Qed.

Lemma str_forall_extname (P : ascii → bool) (path : string) :
  str_forall P path = true → str_forall P (extname path) = true.
Proof.
  intros H. unfold extname.
  destruct (_ || _); [done | by apply str_forall_slice].
Qed.

Lemma replace_default_from (before s : string) :
  str_forall legal_char (replace_from illegalChars_default "_" before s) = true
  ∧ String.length (replace_from illegalChars_default "_" before s)
    = String.length s.
Proof.
  revert before. induction s as [|c s IH]; intros before; [done |].
  simpl. destruct (illegal_default_class c) eqn:Hc.
  - destruct (IH (before +:+ String c "")) as [Hall Hlen].
    change (substitution (String c "") before s "_") with "_".
    rewrite str_forall_app, str_app_length, Hall, Hlen. done.
  - destruct (IH (before +:+ String c "")) as [Hall Hlen].
    simpl. unfold legal_char at 1. rewrite Hc, Hall, Hlen. done.
Qed.

(** With the default sanitising rules, the first step keeps the length of
    the name, and no code unit of the result matches the illegal-character
    pattern, whatever the input. *)
Theorem sanitizeFilename_default_legal (h : Host) (filename : string) :
  let config := file (defaultConfig h) in
  JS.len (replace (illegalChars (sanitize config))
                  (replaceChar (sanitize config)) filename)
  = JS.len filename
  ∧ str_forall legal_char (sanitizeFilename filename config) = true.
Proof.
  intros config.
  destruct (replace_default_from "" filename) as [Hall Hlen].
  split; [unfold JS.len; simpl; unfold replace; by rewrite Hlen |].
  rewrite sanitizeFilename_steps. cbv zeta.
  assert (Hsafe : str_forall legal_char (safeName filename config) = true).
  { unfold safeName. simpl. unfold replace.
    destruct (JS.arr_includes _ _); [| exact Hall].
    rewrite str_forall_app, Hall. done. }
  destruct (_ >? _); [| exact Hsafe].
  rewrite !str_forall_app.
  rewrite str_forall_slice, str_forall_extname by exact Hsafe. done.
Qed.

(** * Further properties of [comments.ts] *)

(** ** The response that is returned *)

Lemma shapeResponse_final (rawComments : list RawComment) (maxComments : nat)
    (_config : option Config) :
  let response := buildResponse rawComments maxComments in
  let final := finalResponse rawComments maxComments _config in
  shapeResponse rawComments maxComments _config = JSON_stringify final
  ∧ ∃ k : nat,
      (k ≤ length (comments response) - 1)%nat
      ∧ comments final
        = take (length (comments response) - k) (comments response)
      ∧ (k = 0%nat → final = response)
      ∧ ((0 < k)%nat → final = truncatedResponse (comments final)).
Proof.
  intros response final. unfold final, finalResponse, shapeResponse.
  fold response.
  assert (Hsame :
    JSON_stringify response = JSON_stringify response
    ∧ ∃ k : nat,
        (k ≤ length (comments response) - 1)%nat
        ∧ comments response
          = take (length (comments response) - k) (comments response)
        ∧ (k = 0%nat → response = response)
        ∧ ((0 < k)%nat → response = truncatedResponse (comments response))).
  { split; [done |]. exists 0%nat.
    repeat split; [lia | by rewrite Nat.sub_0_r, take_ge | lia]. }
  destruct _config as [c|]; [| exact Hsame].
  destruct (_ >? _); [| exact Hsame].
  destruct (truncate_loop_final (characterLimit (limits c)) response)
    as (k & fin & Hloop & Hk & Hc & H0 & Hpos & _).
  rewrite Hloop. simpl.
  destruct k as [|k].
  - rewrite (H0 eq_refl). exact Hsame.
  - specialize (Hpos ltac:(lia)). rewrite <- Hpos.
    split; [done |]. exists (S k). repeat split; done.
Qed.

(** The response that is returned has a [count] equal to the number of its
    comments, which is at most [maxComments] and at most the number of
    source comments; it carries [_truncated] and [_message] together or not
    at all, and the message names the count; and when its [has_more] is
    false it holds every source comment. *)
Theorem returned_response_invariant (t : Tool) (url : string)
    (maxComments : nat) (sortOrder : CommentSortOrder)
    (_config : option Config) (output : string)
    (parsed : option (list RawComment)) :
  validateUrl t url = true →
  spawnPromise t "yt-dlp" (toolArgs url maxComments sortOrder _config)
    = inr output →
  parseComments t output = inr parsed →
  let rawComments := default [] parsed in
  let final := finalResponse rawComments maxComments _config in
  getVideoComments t url maxComments sortOrder _config
  = Returns (JSON_stringify final)
  ∧ count final = Z.of_nat (length (comments final))
  ∧ (length (comments final) ≤ maxComments)%nat
  ∧ (length (comments final) ≤ length rawComments)%nat
  ∧ ((_truncated final = None ∧ _message final = None)
     ∨ (_truncated final = Some true
        ∧ _message final
          = Some (truncation_message (length (comments final)))
        ∧ has_more final = true))
  ∧ (has_more final = false → comments final = project <$> rawComments).
Proof.
  intros Hurl Hspawn Hparse rawComments final.
  rewrite (getVideoComments_success _ _ _ _ _ _ _ Hurl Hspawn Hparse).
  fold rawComments.
  destruct (shapeResponse_final rawComments maxComments _config)
    as (Htext & k & Hk & Hc & H0 & Hpos).
  fold final in Htext, Hc, H0, Hpos.
  set (response := buildResponse rawComments maxComments) in *.
  assert (Hn : length (comments response)
               = (length rawComments `min` maxComments)%nat).
  { unfold response. rewrite buildResponse_comments, length_fmap, length_take.
    lia. }
  assert (Hlen : (length (comments final) ≤ length (comments response))%nat).
  { rewrite Hc, length_take. lia. }
  split; [by rewrite Htext |].
  destruct k as [|k].
  - rewrite (H0 eq_refl).
    split.
    { unfold response, buildResponse. simpl. by rewrite length_fmap. }
    split; [lia |]. split; [lia |]. split; [by left |].
    intros Hmore. unfold response in *. rewrite buildResponse_comments.
    assert (¬ (maxComments < length rawComments)%nat).
    { intros Hlt. apply buildResponse_has_more in Hlt. congruence. }
    rewrite take_ge; [done | lia].
  - specialize (Hpos ltac:(lia)).
    split; [by rewrite Hpos |].
    split; [lia |]. split; [lia |].
    split; [right; by rewrite Hpos |].
    rewrite Hpos. simpl. done.
Qed.

(** Two source comments, [maxComments] five, no configuration. *)
Lemma returned_response_invariant_witness :
  let raw := [sample_raw; sample_raw] in
  let final := finalResponse raw 5 None in
  count final = 2 ∧ has_more final = false
  ∧ comments final = [sample_comment; sample_comment].
Proof.
  intros raw final.
  destruct (returned_response_invariant (tool_printing raw)
              "https://youtu.be/x" 5 top None "" (Some raw)
              eq_refl eq_refl eq_refl)
    as (_ & Hcount & _ & _ & _ & Hall).
  split; [exact Hcount |]. split; [reflexivity |].
  apply Hall. reflexivity.
Defined.

(** ** The loop stops at the first text that fits *)

(** The number [k] of comments dropped for size is the least one whose text
    fits: the text returned is the one after [k] turns, every text before
    it is over the limit, and it fits unless a single comment, or none, is
    left. *)
Theorem size_ceiling_first_fit (t : Tool) (url : string) (maxComments : nat)
    (sortOrder : CommentSortOrder) (config : Config)
    (output : string) (parsed : option (list RawComment)) :
  validateUrl t url = true →
  spawnPromise t "yt-dlp" (toolArgs url maxComments sortOrder (Some config))
    = inr output →
  parseComments t output = inr parsed →
  let limit := characterLimit (limits config) in
  let response := buildResponse (default [] parsed) maxComments in
  let text := candidate_text (JSON_stringify response) (comments response) in
  ∃ k : nat,
    getVideoComments t url maxComments sortOrder (Some config)
    = Returns (text k)
    ∧ (∀ j, (j < k)%nat → JS.len (text j) > limit)
    ∧ (JS.len (text k) ≤ limit
       ∨ (length (comments response) - k ≤ 1)%nat).
Proof.
  intros Hurl Hspawn Hparse limit response text.
  rewrite (getVideoComments_success _ _ _ _ _ _ _ Hurl Hspawn Hparse).
  unfold shapeResponse. fold response limit.
  destruct (Z.gtb_spec (JS.len (JSON_stringify response)) limit) as [Hover|Hfit].
  2: { exists 0%nat. split; [done |]. split; [lia | by left]. }
  destruct (truncate_loop_final limit response)
    as (k & final & Hloop & Hk & Hc & H0 & Hpos & Hexit & _).
  pose proof (truncate_loop_first_fit limit
                {| result := JSON_stringify response;
                   truncatedComments := comments response;
                   turns := 0 |}) as Hfirst.
  rewrite Hloop in *. simpl in Hfirst.
  exists k.
  assert (Htext : text k = JSON_stringify final).
  { unfold text. destruct k as [|k]; simpl.
    - by rewrite (H0 eq_refl).
    - rewrite (Hpos ltac:(lia)), Hc. done. }
  split; [by rewrite Htext |].
  split.
  { intros j Hj. apply Hfirst. lia. }
  rewrite Htext. destruct Hexit as [?|Hle]; [by left |]. right.
  rewrite Hc, length_take in Hle. lia.
Qed.

(** Three comments and a limit of 400 characters: the texts with three and
    with two comments are over the limit. *)
Lemma size_ceiling_first_fit_witness :
  let config := with_characterLimit (defaultConfig bare_host) 400 in
  let raw := [sample_raw; sample_raw; sample_raw] in
  ∃ k : nat,
    getVideoComments (tool_printing raw) "https://youtu.be/x" 5 top
      (Some config)
    = Returns
        (candidate_text (JSON_stringify (buildResponse raw 5))
           (comments (buildResponse raw 5)) k).
Proof.
  intros config raw.
  destruct (size_ceiling_first_fit (tool_printing raw) "https://youtu.be/x" 5
              top config "" (Some raw) eq_refl eq_refl eq_refl)
    as (k & Hret & _).
  by exists k.
Defined.

(** ** Keys that are not in the schema *)

Lemma project_known (l l' : list RawComment) :
  known <$> l = known <$> l' → project <$> l = project <$> l'.
Proof.
  revert l'. induction l as [|c l IH]; intros [|c' l']; try done.
  rewrite !fmap_cons. intros [= Hk Ht].
  f_equal; [unfold project; by rewrite Hk | by apply IH].
Qed.

(** The keys of a source comment that are not in the schema never reach
    the output: two outputs of the tool whose comments agree on the known
    fields give the same text. *)
Theorem unknown_keys_dropped (t t' : Tool) (url : string) (maxComments : nat)
    (sortOrder : CommentSortOrder) (_config : option Config)
    (output output' : string) (raw raw' : list RawComment) :
  validateUrl t url = true →
  spawnPromise t "yt-dlp" (toolArgs url maxComments sortOrder _config)
    = inr output →
  parseComments t output = inr (Some raw) →
  validateUrl t' url = true →
  spawnPromise t' "yt-dlp" (toolArgs url maxComments sortOrder _config)
    = inr output' →
  parseComments t' output' = inr (Some raw') →
  known <$> raw = known <$> raw' →
  getVideoComments t url maxComments sortOrder _config
  = getVideoComments t' url maxComments sortOrder _config.
Proof.
  intros Hurl Hspawn Hparse Hurl' Hspawn' Hparse' Hknown.
  rewrite (getVideoComments_success _ _ _ _ _ _ _ Hurl Hspawn Hparse).
  rewrite (getVideoComments_success _ _ _ _ _ _ _ Hurl' Hspawn' Hparse').
  simpl. f_equal.
  assert (Hlen : length raw = length raw').
  { by rewrite <- (length_fmap known raw), Hknown, length_fmap. }
  assert (Hresp : buildResponse raw maxComments = buildResponse raw' maxComments).
  { unfold buildResponse. rewrite !slice_prefix, !length_take, Hlen.
    f_equal. apply project_known. by rewrite !fmap_take, Hknown. }
  unfold shapeResponse. by rewrite Hresp.
Qed.

(** The same comment with and without an extra key. *)
Lemma unknown_keys_dropped_witness :
  getVideoComments (tool_printing [sample_raw]) "https://youtu.be/x" 5 top None
  = getVideoComments
      (tool_printing [{| known := sample_comment; others := [] |}])
      "https://youtu.be/x" 5 top None.
Proof.
  apply (unknown_keys_dropped _ _ _ _ _ _ "" "" [sample_raw]
           [{| known := sample_comment; others := [] |}]);
    reflexivity.
Defined.

(** ** The argument vector *)

(** The argument vector starts with the same seven arguments, ends with
    the URL, and holds in between nothing or a single cookie option with
    its value: it has eight or ten entries. *)
Theorem toolArgs_shape (url : string) (maxComments : nat)
    (sortOrder : CommentSortOrder) (_config : option Config) :
  ∃ cookie : list string,
    toolArgs url maxComments sortOrder _config
    = take 7 (toolArgs url maxComments sortOrder None) ++ cookie ++ [url]
    ∧ take 7 (toolArgs url maxComments sortOrder _config)
      = take 7 (toolArgs url maxComments sortOrder None)
    ∧ last (toolArgs url maxComments sortOrder _config) = Some url
    ∧ (cookie = []
       ∨ ∃ value, value ≠ ""
                  ∧ (cookie = ["--cookies"; value]
                     ∨ cookie = ["--cookies-from-browser"; value]))
    ∧ (length (toolArgs url maxComments sortOrder _config) = 8%nat
       ∨ length (toolArgs url maxComments sortOrder _config) = 10%nat).
Proof.
  destruct _config as [c|].
  2: { exists []. repeat split; [by left | by left]. }
  exists (getCookieArgs c).
  assert (Hcookie :
    getCookieArgs c = []
    ∨ ∃ value, value ≠ ""
               ∧ (getCookieArgs c = ["--cookies"; value]
                  ∨ getCookieArgs c = ["--cookies-from-browser"; value])).
  { unfold getCookieArgs, cookieArgs.
    destruct (cookies_file (cookies c)) as [f|],
             (cookies_fromBrowser (cookies c)) as [b|];
      repeat (match goal with |- context [JS.nonempty ?s] =>
                destruct (JS.nonempty s) eqn:? end);
      try (by left); right;
      match goal with H : JS.nonempty ?s = true |- context [[_; ?s]] =>
        apply nonempty_true in H; exists s; split; [done |]; auto end. }
  unfold toolArgs. simpl.
  split; [done |]. split; [done |].
  split; [| split; [exact Hcookie |]].
  - destruct Hcookie as [-> | (v & _ & [-> | ->])]; reflexivity.
  - destruct Hcookie as [-> | (v & _ & [-> | ->])]; simpl; auto.
Qed.

(** * Further properties of the summary *)

(** ** Failures *)

(** [getVideoCommentsSummary] fails with the message [getVideoComments]
    fails with: the invalid-URL message when the URL is refused, whatever
    the tool would print, and the classified message when the tool or the
    parsing of its output fails.  When the text of [getVideoComments] cannot
    be parsed, it fails with the parser's message, or with a generic message
    that names the URL when the failure is not an [Error]. *)
Theorem summary_failures (t : Tool) (rule url : string) (maxComments : nat)
    (_config : option Config) :
  (validateUrl t url = false →
   getVideoComments t url maxComments top _config
   = Throws "Invalid or unsupported URL format"
   ∧ getVideoCommentsSummary t rule url maxComments _config
     = Throws "Invalid or unsupported URL format")
  ∧ (∀ error,
       validateUrl t url = true →
       (spawnPromise t "yt-dlp" (toolArgs url maxComments top _config)
        = inl error
        ∨ ∃ output,
            spawnPromise t "yt-dlp" (toolArgs url maxComments top _config)
            = inr output
            ∧ parseComments t output = inl error) →
       getVideoCommentsSummary t rule url maxComments _config
       = Throws (classifyError url error))
  ∧ (∀ commentsJson error,
       getVideoComments t url maxComments top _config = Returns commentsJson →
       parseResponse t commentsJson = inl error →
       getVideoCommentsSummary t rule url maxComments _config
       = Throws match error with
                | ErrorValue message => message
                | OtherValue =>
                    "Failed to generate comments summary for " +:+ url
                end).
Proof.
  split; [| split].
  - intros Hurl. unfold getVideoCommentsSummary, getVideoComments.
    by rewrite Hurl.
  - intros error Hurl Hfail. unfold getVideoCommentsSummary.
    by rewrite (getVideoComments_failure _ _ _ _ _ _ Hurl Hfail).
  - intros commentsJson error Hret Hparse. unfold getVideoCommentsSummary.
    rewrite Hret, Hparse. by destruct error.
Qed.

(** The tool reports an unsupported URL. *)
Lemma summary_failures_witness :
  let t :=
    {| validateUrl := λ _, true;
       spawnPromise := λ _ _, inl (ErrorValue "ERROR: Unsupported URL: x");
       parseComments := λ _, inr None;
       parseResponse := λ _, inl OtherValue |} in
  getVideoCommentsSummary t "" "https://example.com/v" 10 None
  = Throws (classifyError "https://example.com/v"
              (ErrorValue "ERROR: Unsupported URL: x")).
Proof.
  intros t.
  apply (proj1 (proj2 (summary_failures t "" "https://example.com/v" 10 None))).
  - reflexivity.
  - left. reflexivity.
Defined.

(** ** The text of a comment *)

(** The line that shows the text of a comment has at most 303 code units:
    a text of at most 300 code units is shown whole, and a longer one is cut
    to its first 300 code units and three dots. *)
Theorem comment_text_line_bounded (comment : Comment) (t : string) :
  text comment = Some t → t ≠ "" →
  ∃ line rest,
    commentLines comment = authorLine comment :: line :: rest
    ∧ JS.len line ≤ 303
    ∧ (JS.len t ≤ 300 → line = t)
    ∧ (JS.len t > 300 →
       line = JS.str_slice t 0 300 +:+ "..." ∧ JS.len line = 303).
Proof.
  intros Ht Hne. unfold commentLines. rewrite Ht.
  apply nonempty_true in Hne. rewrite Hne.
  eexists _, _. split; [reflexivity |].
  destruct (Z.gtb_spec (JS.len t) 300) as [Hlong|Hshort].
  - assert (Hlen : JS.len (JS.str_slice t 0 300 +:+ "...") = 303).
    { rewrite len_app, str_slice_prefix_length by lia. reflexivity. }
    split; [lia |]. split; [lia | done].
  - split; [lia |]. split; [done | lia].
Qed.

Lemma comment_text_line_bounded_witness :
  ∃ line rest,
    commentLines sample_comment = authorLine sample_comment :: line :: rest
    ∧ JS.len line ≤ 303.
Proof.
  destruct (comment_text_line_bounded sample_comment "First!" eq_refl
              ltac:(discriminate))
    as (line & rest & Hlines & Hlen & _).
  by exists line, rest.
Defined.

(** ** The summary of a successful extraction *)

Lemma join_app_last (sep : string) (l : list string) (x : string) :
  l ≠ [] → JS.join sep (l ++ [x]) = JS.join sep l +:+ sep +:+ x.
Proof.
  induction l as [|a l IH]; [done |]. intros _.
  destruct l as [|b l]; [reflexivity |].
  change (JS.join sep ((a :: b :: l) ++ [x]))
    with (a +:+ sep +:+ JS.join sep ((b :: l) ++ [x])).
  rewrite IH by done.
  change (JS.join sep (a :: b :: l)) with (a +:+ sep +:+ JS.join sep (b :: l)).
  by rewrite !str_app_assoc.
Qed.

Lemma finalResponse_has_more (rawComments : list RawComment)
    (maxComments : nat) (_config : option Config) :
  (maxComments < length rawComments)%nat →
  has_more (finalResponse rawComments maxComments _config) = true.
Proof.
  intros Hmore.
  destruct (shapeResponse_final rawComments maxComments _config)
    as (_ & k & _ & _ & H0 & Hpos).
  destruct k as [|k].
  - rewrite (H0 eq_refl). by apply buildResponse_has_more.
  - by rewrite (Hpos ltac:(lia)).
Qed.

(** When the extraction succeeds and the parser gives back the response
    that was serialized, the summary is the text of that response: it
    starts with the header that shows the number of comments, which is at
    most [maxComments], then the rule; and when the source has more than
    [maxComments] comments it ends with the notice that more are
    available. *)
Theorem summary_of_success (t : Tool) (rule url : string) (maxComments : nat)
    (_config : option Config) (output : string)
    (parsed : option (list RawComment)) :
  validateUrl t url = true →
  spawnPromise t "yt-dlp" (toolArgs url maxComments top _config)
    = inr output →
  parseComments t output = inr parsed →
  let rawComments := default [] parsed in
  let final := finalResponse rawComments maxComments _config in
  parseResponse t (JSON_stringify final) = inr final →
  getVideoCommentsSummary t rule url maxComments _config
  = Returns (summaryText rule final)
  ∧ (length (comments final) ≤ maxComments)%nat
  ∧ (∃ body,
       summaryText rule final
       = "Video Comments ("
         +:+ JS.Z_to_string (Z.of_nat (length (comments final)))
         +:+ " shown)" +:+ newline +:+ rule +:+ newline +:+ body)
  ∧ ((maxComments < length rawComments)%nat →
     ∃ before,
       summaryText rule final
       = before +:+ newline +:+ "---" +:+ newline
         +:+ "More comments available. Increase maxComments to see more.").
Proof.
  intros Hurl Hspawn Hparse rawComments final Hjson.
  destruct (returned_response_invariant t url maxComments top _config output
              parsed Hurl Hspawn Hparse)
    as (Hret & Hcount & Hmax & _).
  fold rawComments final in Hret, Hcount, Hmax.
  split.
  { unfold getVideoCommentsSummary. by rewrite Hret, Hjson. }
  split; [exact Hmax |].
  split.
  { unfold summaryText. rewrite Hcount.
    set (tail := (comments final ≫= commentLines)
                 ++ (if has_more final
                     then ["---";
                           "More comments available. Increase maxComments to see more."]
                     else [])).
    exists (JS.join newline ("" :: tail)).
    set (n := JS.Z_to_string (Z.of_nat (length (comments final)))).
    change (JS.join newline (["Video Comments (" +:+ n +:+ " shown)"; rule; ""]
                             ++ tail))
      with (("Video Comments (" +:+ n +:+ " shown)") +:+ newline +:+ rule
            +:+ newline +:+ JS.join newline ("" :: tail)).
    clearbody n tail. by rewrite !str_app_assoc. }
  intros Hmore. unfold summaryText.
  rewrite (finalResponse_has_more _ _ _ Hmore : has_more final = true).
  set (head := ["Video Comments (" +:+ JS.Z_to_string (count final)
                +:+ " shown)"; rule; ""]
               ++ (comments final ≫= commentLines)).
  exists (JS.join newline head).
  change (JS.join newline
            (["Video Comments (" +:+ JS.Z_to_string (count final)
              +:+ " shown)"; rule; ""]
             ++ (comments final ≫= commentLines)
             ++ ["---";
                 "More comments available. Increase maxComments to see more."]))
    with (JS.join newline
            (head ++ ["---"]
             ++ ["More comments available. Increase maxComments to see more."])).
  rewrite app_assoc.
  rewrite join_app_last by (subst head; done).
  rewrite join_app_last by (subst head; done).
  clearbody head. by rewrite !str_app_assoc.
Qed.

(** Two comments, and a parser that gives back the response. *)
Lemma summary_of_success_witness :
  let raw := [sample_raw; sample_raw] in
  let final := finalResponse raw 5 None in
  let t :=
    {| validateUrl := λ _, true;
       spawnPromise := λ _ _, inr "";
       parseComments := λ _, inr (Some raw);
       parseResponse := λ _, inr final |} in
  getVideoCommentsSummary t "----" "https://youtu.be/x" 5 None
  = Returns (summaryText "----" final).
Proof.
  intros raw final t.
  apply (summary_of_success t "----" "https://youtu.be/x" 5 None ""
           (Some raw) eq_refl eq_refl eq_refl eq_refl).
Defined.

(** * A pattern from the environment *)

Lemma replace_from_once (re : RegExp) (replacement before s : string) :
  re_global re = false →
  (str_forall (λ c, negb (re_class re c)) s = true
   ∧ replace_from re replacement before s = s)
  ∨ ∃ pre c post,
      s = pre +:+ String c post
      ∧ str_forall (λ c, negb (re_class re c)) pre = true
      ∧ re_class re c = true
      ∧ replace_from re replacement before s
        = pre +:+ substitution (String c "") (before +:+ pre) post replacement
          +:+ post.
Proof.
  intros Hg. revert before. induction s as [|c s IH]; intros before.
  - by left.
  - simpl. destruct (re_class re c) eqn:Hc.
    + right. exists "", c, s. rewrite Hg, str_app_nil_r. by repeat split.
    + destruct (IH (before +:+ String c ""))
        as [[Hall Hsame] | (pre & c' & post & -> & Hpre & Hc' & Hres)].
      * left. simpl. by rewrite ?Hc, Hall, Hsame.
      * right. exists (String c pre), c', post.
        rewrite Hres, str_app_assoc. simpl. rewrite ?Hc. by repeat split.
Qed.

Lemma loadEnvConfig_pattern (h : Host) (envConfig : ConfigPartial)
    (source : string) :
  loadEnvConfig h = Returns envConfig →
  env_truthy h "YTDLP_SANITIZE_ILLEGAL_CHARS" = Some source →
  ∃ cls,
    compileClass h source = Some cls
    ∧ (p_file envConfig ≫= p_sanitize) ≫= p_illegalChars
      = Some {| re_class := cls; re_global := false |}.
Proof.
  unfold loadEnvConfig. intros Henv Hsrc. rewrite Hsrc in Henv.
  simpl in Henv. unfold RegExp_new in Henv.
  destruct (compileClass h source) as [cls|]; simpl in Henv; [| done].
  injection Henv as <-. by exists cls.
Qed.

Lemma str_forall_ext (P Q : ascii → bool) (s : string) :
  (∀ c, P c = Q c) → str_forall P s = str_forall Q s.
Proof.
  intros HPQ. induction s as [|c s IH]; [done |].
  simpl. by rewrite HPQ, IH.
Qed.

(** The first step of [sanitizeFilename] under a pattern that comes from
    the environment, in terms of the class of the compiled pattern. *)
Lemma env_pattern_first_match (h : Host) (config : Config)
    (warnings : list string) (source filename : string) :
  loadConfig h = Returns (config, warnings) →
  env_truthy h "YTDLP_SANITIZE_ILLEGAL_CHARS" = Some source →
  let re := illegalChars (sanitize (file config)) in
  let replacement := replaceChar (sanitize (file config)) in
  compileClass h source = Some (re_class re)
  ∧ re_global re = false
  ∧ ((str_forall (λ c, negb (re_class re c)) filename = true
      ∧ replace re replacement filename = filename)
     ∨ ∃ pre c post,
         filename = pre +:+ String c post
         ∧ str_forall (λ c, negb (re_class re c)) pre = true
         ∧ re_class re c = true
         ∧ replace re replacement filename
           = pre +:+ substitution (String c "") pre post replacement
             +:+ post).
Proof.
  intros Hload Hsrc re replacement.
  destruct (loadConfig_returns _ _ _ Hload) as (e & Henv & _ & Hpair).
  destruct (loadEnvConfig_pattern _ _ _ Henv Hsrc) as (cls & Hcls & Hre).
  pose proof (validateCookiesConfig_rest h (mergeConfig (defaultConfig h) e))
    as (Hf & _).
  rewrite <- Hpair in Hf. simpl in Hf.
  assert (Hill : re = {| re_class := cls; re_global := false |}).
  { unfold re. rewrite Hf. unfold mergeConfig. simpl. by rewrite Hre. }
  rewrite Hill. simpl.
  split; [done |]. split; [done |].
  apply (replace_from_once {| re_class := cls; re_global := false |}
           replacement "" filename eq_refl).
Qed.

(** A pattern that comes from the environment is compiled without the [g]
    flag.  For a pattern that is a class of literal code units written
    between brackets, which the host compiles to the test of membership in
    that class, the first step of [sanitizeFilename] therefore replaces
    the first code unit of the name that is in the class and no other: the
    name is unchanged when none of its code units is in the class, and
    otherwise only the first one that is in the class is replaced, the
    text before and after it staying as it was.  Patterns of another
    shape are not covered. *)
Theorem env_pattern_replaces_once (h : Host) (config : Config)
    (warnings : list string) (members : list ascii) (filename : string) :
  forallb class_literal members = true →
  (∀ cls, compileClass h (class_source members) = Some cls →
          ∀ c, cls c = bool_decide (c ∈ members)) →
  loadConfig h = Returns (config, warnings) →
  env_truthy h "YTDLP_SANITIZE_ILLEGAL_CHARS" = Some (class_source members) →
  let re := illegalChars (sanitize (file config)) in
  let replacement := replaceChar (sanitize (file config)) in
  re_global re = false
  ∧ ((str_forall (λ c, negb (bool_decide (c ∈ members))) filename = true
      ∧ replace re replacement filename = filename)
     ∨ ∃ pre c post,
         filename = pre +:+ String c post
         ∧ str_forall (λ c, negb (bool_decide (c ∈ members))) pre = true
         ∧ c ∈ members
         ∧ replace re replacement filename
           = pre +:+ substitution (String c "") pre post replacement
             +:+ post).
Proof.
  intros _ Hclass Hload Hsrc re replacement.
  destruct (env_pattern_first_match h config warnings (class_source members)
              filename Hload Hsrc) as (Hcompiled & Hg & Hfirst).
  fold re replacement in Hcompiled, Hg, Hfirst.
  specialize (Hclass _ Hcompiled).
  assert (Hext : ∀ s,
    str_forall (λ c, negb (re_class re c)) s
    = str_forall (λ c, negb (bool_decide (c ∈ members))) s).
  { intros s. apply str_forall_ext. intros c. by rewrite Hclass. }
  split; [exact Hg |].
  destruct Hfirst as [[Hall Hsame] | (pre & c & post & Hname & Hpre & Hc & Hres)].
  - left. by rewrite <- Hext.
  - right. exists pre, c, post. rewrite <- Hext.
    repeat split; try done.
    rewrite Hclass in Hc. by apply bool_decide_eq_true in Hc.
Qed.

(** The class of the two angle brackets on a name with two of them: the
    first bracket is replaced and the second stays. *)
Lemma env_pattern_replaces_once_witness :
  ∃ config warnings,
    loadConfig host_with_pattern = Returns (config, warnings)
    ∧ re_global (illegalChars (sanitize (file config))) = false.
Proof.
  load_closed host_with_pattern config warnings Hload.
  exists config, warnings. split; [done |].
  apply (env_pattern_replaces_once host_with_pattern config warnings
           ["<"%char; ">"%char] "a<b>c.mp4" eq_refl).
  - intros cls [= <-] c. apply bool_decide_ext.
    rewrite !elem_of_cons, elem_of_nil. tauto.
  - exact Hload.
  - reflexivity.
Defined.
